(** * gogis: the WKB decoders and WKT encoders of Point, LineString,
      Polygon and GeometryCollection

    A shallow embedding of the four geometry types of package [gogis]:
    [Point] (the second half of src/geometry_collection_test.go, lines
    407-500), [LineString] (src/unnamed/part_003), [Polygon]
    (src/polygon.go) and [GeometryCollection] (src/unnamed/part_002).
    Every [Scan] method is a function from the scanned value and the
    receiver to the receiver after the call and the returned error;
    every [String] method is a function to [string].

    Conventions.
    - Unsigned Go integers ([uint8], [uint32], [uint64]) are [N]; the
      values read from the wire are in range by construction.
    - A [float64] is its IEEE-754 bit pattern, which is what
      [binary.Read] stores; the decoders do no arithmetic on it.
    - A Go slice is [slice A]: either [nil_slice] or an allocated
      sequence.  Allocation is assumed to succeed.
    - [bytes.Reader] is the list of bytes not yet read.
    - A [Scan] method is long and straight-line; it is cut at two
      points, so that statements can name what runs after them:
      [scanString] is the method from [hex.DecodeString] on and
      [scanWKB] is the method from the read of the type tag on, with
      the resolved byte order as argument. *)

From Stdlib Require Import NArith List String Ascii Lia DecimalString.
From Stdlib.Strings Require Import Byte.
From stdpp Require Import base list.
Import ListNotations.

Open Scope N_scope.

(** ** Go data *)

Definition float64 := N.

Inductive slice (A : Type) : Type :=
| nil_slice
| mk_slice (l : list A).
Arguments nil_slice {A}.
Arguments mk_slice {A} l.

Definition len {A} (s : slice A) : nat :=
  match s with
  | nil_slice => 0%nat
  | mk_slice l => length l
  end.

Definition elems {A} (s : slice A) : list A :=
  match s with
  | nil_slice => []
  | mk_slice l => l
  end.

(** [make([]T, n)]: [n] zero values. *)
Definition make {A} (zero : A) (n : N) : slice A :=
  mk_slice (replicate (N.to_nat n) zero).

(** The dynamic value handed to [Scan(val any)].  [any_other T] is a
    value of any type other than [[]uint8] and [string]; [T] is the type
    name that the verb [%T] prints. *)
Inductive any : Type :=
| any_nil
| any_uint8s (v : list byte)
| any_string (v : string)
| any_other (T : string).

Inductive error : Type :=
| errorString (msg : string)
| io_EOF
| io_ErrUnexpectedEOF
| hex_ErrLength
| hex_InvalidByteError (b : byte).

(** How a call ends: it returns an error value ([None] is Go's [nil]),
    or a failed type assertion to [string] panics; [T] is the dynamic
    type that was found. *)
Inductive outcome : Type :=
| returns (err : option error)
| panics (T : string).

(** ** The parts of the Go library that the decoders call *)

Module fmt.

(** The verb [%d] at an unsigned integer. *)
Definition d (n : N) : string := NilZero.string_of_uint (N.to_uint n).

Definition Errorf (msg : string) : error := errorString msg.

End fmt.

(** The verb [%v] at a [float64], which is [strconv]'s shortest decimal
    that reads back as the same value; it belongs to the Go library and
    is kept as an interface. *)
Class Formatter := fmt_v : float64 -> string.

Module strings.

(** [strings.Join]. *)
Definition Join (elems : list string) (sep : string) : string :=
  String.concat sep elems.

(** [strings.Index(s, ";")], the case of a one-byte separator:
    position of its first occurrence, or [None] for Go's [-1]. *)
Fixpoint IndexByte (s : string) (c : ascii) : option nat :=
  match s with
  | EmptyString => None
  | String a rest =>
      if Ascii.eqb a c then Some 0%nat
      else option_map S (IndexByte rest c)
  end.

(** The slice expression [s[i:]]. *)
Fixpoint from (s : string) (i : nat) : string :=
  match i, s with
  | O, _ => s
  | S i', String _ rest => from rest i'
  | S _, EmptyString => EmptyString
  end.

End strings.

Module hex.

(** [reverseHexTable]: the value of a hexadecimal digit of either
    case; [None] stands for the table's [0xff]. *)
Definition fromHexChar (c : ascii) : option N :=
  let n := N_of_ascii c in
  if (48 <=? n) && (n <=? 57) then Some (n - 48)
  else if (97 <=? n) && (n <=? 102) then Some (n - 97 + 10)
  else if (65 <=? n) && (n <=? 70) then Some (n - 65 + 10)
  else None.

Definition mkbyte (n : N) : byte := byte_of_ascii (ascii_of_N n).

(** [hex.DecodeString]: two digits per byte; the first offending
    character is reported, and an odd length is reported last. *)
Fixpoint DecodeString (s : string) : error + list byte :=
  match s with
  | EmptyString => inr []
  | String p EmptyString =>
      match fromHexChar p with
      | None => inl (hex_InvalidByteError (byte_of_ascii p))
      | Some _ => inl hex_ErrLength
      end
  | String p (String q rest) =>
      match fromHexChar p with
      | None => inl (hex_InvalidByteError (byte_of_ascii p))
      | Some a =>
          match fromHexChar q with
          | None => inl (hex_InvalidByteError (byte_of_ascii q))
          | Some b =>
              match DecodeString rest with
              | inl e => inl e
              | inr bs => inr (mkbyte (a * 16 + b) :: bs)
              end
          end
      end
  end.

End hex.

Module io.

(** [io.ReadFull] on a [bytes.Reader]: exactly [n] bytes, [io.EOF]
    when nothing is left, [io.ErrUnexpectedEOF] when too little is. *)
Definition ReadFull (n : nat) (r : list byte)
  : error + (list byte * list byte) :=
  if (n <=? length r)%nat then inr (take n r, drop n r)
  else match r with
       | [] => inl io_EOF
       | _ :: _ => inl io_ErrUnexpectedEOF
       end.

End io.

Module binary.

Inductive ByteOrder : Type := BigEndian | LittleEndian.

(** Value of a byte string read least significant byte first. *)
Fixpoint le_value (bs : list byte) : N :=
  match bs with
  | [] => 0
  | b :: rest => Byte.to_N b + 256 * le_value rest
  end.

(** [ByteOrder.Uint32] and [ByteOrder.Uint64], on a buffer of the
    right length. *)
Definition Uint (order : ByteOrder) (bs : list byte) : N :=
  match order with
  | LittleEndian => le_value bs
  | BigEndian => le_value (rev bs)
  end.

(** [binary.Read(r, order, &x)] for [x] of type [uint8], [uint32],
    [uint64] and [float64]. *)
Definition Read (size : nat) (order : ByteOrder) (r : list byte)
  : error + (N * list byte) :=
  match io.ReadFull size r with
  | inl e => inl e
  | inr (bs, r') => inr (Uint order bs, r')
  end.

Definition Read_uint8 := Read 1.
Definition Read_uint32 := Read 4.
Definition Read_uint64 := Read 8.
Definition Read_float64 : ByteOrder -> list byte -> error + (float64 * list byte) :=
  Read 8.

End binary.
Export binary(ByteOrder, BigEndian, LittleEndian).

(** ** The geometry types *)

Record Point : Type := { Lng : float64; Lat : float64 }.

Record LineString : Type := { Points : slice Point }.

Record Polygon : Type := { Rings : slice (slice Point) }.

(** The interface [Geometry] has the one method [String].  Its
    implementations in the package are the pointers to the four
    geometry types; [GeomOther text] is an implementation from outside
    the package, known by the text that its [String] returns.  Pointers
    stored in a collection are taken to be non-nil. *)
#[warnings="-register-all"]
Inductive Geometry : Type :=
| GeomPoint (p : Point)
| GeomLineString (ls : LineString)
| GeomPolygon (pg : Polygon)
| GeomCollection (geometries : slice Geometry)
| GeomOther (text : string).

Record GeometryCollection : Type := { Geometries : slice Geometry }.

Definition zeroPoint : Point := {| Lng := 0; Lat := 0 |}.

Definition GeometryTypePoint : N := 1.
Definition GeometryTypeLineString : N := 2.
Definition GeometryTypePolygon : N := 3.
Definition GeometryTypeGeometryCollection : N := 7.

(** The switch on the byte-order marker, written out in every [Scan]. *)
Definition orderOf (marker : N) : option ByteOrder :=
  match marker with
  | 0 => Some BigEndian
  | 1 => Some LittleEndian
  | _ => None
  end.

(** The loop that fills an allocated [[]Point] in place,
    [for j := 0; j < numPoints; j++ { Read(&pts[j].Lng); Read(&pts[j].Lat) }]
    (part_003 161-168, polygon.go 98-105, part_002 145-152 and
    169-176).  [k] iterations are left and [j] is the loop
    index; the points are returned as they stand when the loop ends,
    also when it ends on a failed read. *)
Fixpoint readPoints (order : ByteOrder) (k j : nat) (pts : list Point)
    (r : list byte) : list Point * (error + list byte) :=
  match k with
  | O => (pts, inr r)
  | S k' =>
      match binary.Read_float64 order r with
      | inl e => (pts, inl e)
      | inr (lng, r1) =>
          let pts1 := alter (fun pt => {| Lng := lng; Lat := Lat pt |}) j pts in
          match binary.Read_float64 order r1 with
          | inl e => (pts1, inl e)
          | inr (lat, r2) =>
              let pts2 := alter (fun pt => {| Lng := Lng pt; Lat := lat |}) j pts1 in
              readPoints order k' (S j) pts2 r2
          end
      end
  end.

(** The loop over the rings of a polygon (polygon.go 91-106,
    part_002 162-177): each ring is allocated from its
    own count and filled in place. *)
Fixpoint readRings (order : ByteOrder) (k i : nat)
    (rings : list (slice Point)) (r : list byte)
    : list (slice Point) * (error + list byte) :=
  match k with
  | O => (rings, inr r)
  | S k' =>
      match binary.Read_uint32 order r with
      | inl e => (rings, inl e)
      | inr (numPoints, r1) =>
          let '(pts, res) :=
            readPoints order (N.to_nat numPoints) 0
              (elems (make zeroPoint numPoints)) r1 in
          let rings1 := <[i := mk_slice pts]> rings in
          match res with
          | inl e => (rings1, inl e)
          | inr r2 => readRings order k' (S i) rings1 r2
          end
      end
  end.

Local Open Scope string_scope.

Module Point.

(** [func (p *Point) String() string] *)
Definition String `{Formatter} (p : Point) : string :=
  "SRID=4326;POINT(" ++ fmt_v (Lng p) ++ " " ++ fmt_v (Lat p) ++ ")".

(** [binary.Read(r, byteOrder, p)] at the struct: both fields come
    from one read of sixteen bytes. *)
Definition Read_struct (order : ByteOrder) (r : list byte)
  : error + (Point * list byte) :=
  match io.ReadFull 16 r with
  | inl e => inl e
  | inr (bs, r') =>
      inr ({| Lng := binary.Uint order (take 8 bs);
              Lat := binary.Uint order (drop 8 bs) |}, r')
  end.

(** [Scan] from the read of the type tag on. *)
Definition scanWKB (byteOrder : ByteOrder) (r : list byte) (p : Point)
  : Point * option error :=
  match binary.Read_uint64 byteOrder r with
  | inl e => (p, Some e)
  | inr (wkbGeometryType, r1) =>
      match Read_struct byteOrder r1 with
      | inl e => (p, Some e)
      | inr (p', _) => (p', None)
      end
  end.

(** [Scan] from [hex.DecodeString(decode)] on. *)
Definition scanString (decode : string) (p : Point) : Point * option error :=
  match hex.DecodeString decode with
  | inl e => (p, Some e)
  | inr b =>
      match binary.Read_uint8 LittleEndian b with
      | inl e => (p, Some e)
      | inr (wkbByteOrder, r) =>
          match orderOf wkbByteOrder with
          | None =>
              (p, Some (fmt.Errorf ("invalid byte order " ++ fmt.d wkbByteOrder)))
          | Some byteOrder => scanWKB byteOrder r p
          end
      end
  end.

(** [func (p *Point) Scan(val any) error].  The assertion
    [val.(string)] has no second result: on any other type it
    panics. *)
Definition Scan (val : any) (p : Point) : Point * outcome :=
  match val with
  | any_nil => (p, returns None)
  | any_uint8s uint8Val =>
      let '(p', err) := scanString (string_of_list_byte uint8Val) p in
      (p', returns err)
  | any_string v =>
      let '(p', err) := scanString v p in (p', returns err)
  | any_other T => (p, panics T)
  end.

(** [func (p Point) Value() (driver.Value, error)] *)
Definition Value `{Formatter} (p : Point) : string * option error :=
  (String p, None).

End Point.

Module LineString.

(** [func (ls *LineString) String() string] *)
Definition String `{Formatter} (ls : LineString) : string :=
  if (len (Points ls) =? 0)%nat then "SRID=4326;LINESTRING EMPTY"
  else
    let points :=
      map (fun p => fmt_v (Lng p) ++ " " ++ fmt_v (Lat p)) (elems (Points ls)) in
    "SRID=4326;LINESTRING(" ++ strings.Join points "," ++ ")".

(** [Scan] from the read of the point count on. *)
Definition scanPoints (byteOrder : ByteOrder) (r : list byte) (ls : LineString)
  : LineString * option error :=
  match binary.Read_uint32 byteOrder r with
  | inl e => (ls, Some e)
  | inr (numPoints, r1) =>
      let '(pts, res) :=
        readPoints byteOrder (N.to_nat numPoints) 0
          (elems (make zeroPoint numPoints)) r1 in
      ({| Points := mk_slice pts |},
       match res with inl e => Some e | inr _ => None end)
  end.

(** [Scan] from the read of the type tag on. *)
Definition scanWKB (byteOrder : ByteOrder) (r : list byte) (ls : LineString)
  : LineString * option error :=
  match binary.Read_uint32 byteOrder r with
  | inl e => (ls, Some e)
  | inr (wkbGeometryType, r1) =>
      let geometryType := N.land wkbGeometryType 0x1FFFFFFF in
      if negb (geometryType =? 2)%N then
        (ls, Some (fmt.Errorf
               ("invalid geometry type for LineString: " ++ fmt.d wkbGeometryType)))
      else if negb (N.land wkbGeometryType 0x20000000 =? 0)%N then
        match binary.Read_uint32 byteOrder r1 with
        | inl e => (ls, Some e)
        | inr (srid, r2) => scanPoints byteOrder r2 ls
        end
      else scanPoints byteOrder r1 ls
  end.

(** [Scan] from [hex.DecodeString(decode)] on. *)
Definition scanString (decode : string) (ls : LineString)
  : LineString * option error :=
  match hex.DecodeString decode with
  | inl e => (ls, Some e)
  | inr b =>
      match binary.Read_uint8 LittleEndian b with
      | inl e => (ls, Some e)
      | inr (wkbByteOrder, r) =>
          match orderOf wkbByteOrder with
          | None =>
              (ls, Some (fmt.Errorf ("invalid byte order " ++ fmt.d wkbByteOrder)))
          | Some byteOrder => scanWKB byteOrder r ls
          end
      end
  end.

(** [func (ls *LineString) Scan(val any) error] *)
Definition Scan (val : any) (ls : LineString) : LineString * option error :=
  match val with
  | any_nil => (ls, None)
  | any_uint8s v => scanString (string_of_list_byte v) ls
  | any_string v => scanString v ls
  | any_other T =>
      (ls, Some (fmt.Errorf ("cannot scan type " ++ T ++ " into LineString")))
  end.

(** [func (ls LineString) Value() (driver.Value, error)] *)
Definition Value `{Formatter} (ls : LineString) : string * option error :=
  (String ls, None).

End LineString.

Module Polygon.

(** [func (p *Polygon) String() string] *)
Definition String `{Formatter} (p : Polygon) : string :=
  if (len (Rings p) =? 0)%nat then "SRID=4326;POLYGON EMPTY"
  else
    let rings :=
      map (fun ring =>
             let points :=
               map (fun pt => fmt_v (Lng pt) ++ " " ++ fmt_v (Lat pt)) (elems ring) in
             "(" ++ strings.Join points "," ++ ")")
          (elems (Rings p)) in
    "SRID=4326;POLYGON(" ++ strings.Join rings "," ++ ")".

(** [Scan] from the read of the type tag on. *)
Definition scanWKB (byteOrder : ByteOrder) (r : list byte) (p : Polygon)
  : Polygon * option error :=
  match binary.Read_uint64 byteOrder r with
  | inl e => (p, Some e)
  | inr (wkbGeometryType, r1) =>
      if negb (wkbGeometryType =? 3)%N then
        (p, Some (fmt.Errorf
              ("invalid geometry type for Polygon: " ++ fmt.d wkbGeometryType)))
      else
        match binary.Read_uint32 byteOrder r1 with
        | inl e => (p, Some e)
        | inr (numRings, r2) =>
            let '(rings, res) :=
              readRings byteOrder (N.to_nat numRings) 0
                (elems (make nil_slice numRings)) r2 in
            ({| Rings := mk_slice rings |},
             match res with inl e => Some e | inr _ => None end)
        end
  end.

(** [Scan] from [hex.DecodeString(decode)] on. *)
Definition scanString (decode : string) (p : Polygon) : Polygon * option error :=
  match hex.DecodeString decode with
  | inl e => (p, Some e)
  | inr b =>
      match binary.Read_uint8 LittleEndian b with
      | inl e => (p, Some e)
      | inr (wkbByteOrder, r) =>
          match orderOf wkbByteOrder with
          | None =>
              (p, Some (fmt.Errorf ("invalid byte order " ++ fmt.d wkbByteOrder)))
          | Some byteOrder => scanWKB byteOrder r p
          end
      end
  end.

(** [func (p *Polygon) Scan(val any) error] *)
Definition Scan (val : any) (p : Polygon) : Polygon * option error :=
  match val with
  | any_nil => (p, None)
  | any_uint8s v => scanString (string_of_list_byte v) p
  | any_string v => scanString v p
  | any_other T =>
      (p, Some (fmt.Errorf ("cannot scan type " ++ T ++ " into Polygon")))
  end.

(** [func (p Polygon) Value() (driver.Value, error)] *)
Definition Value `{Formatter} (p : Polygon) : string * option error :=
  (String p, None).

End Polygon.

Module GeometryCollection.

(** The removal of the child's prefix in [String]:
    [if idx := strings.Index(str, ";"); idx != -1 { str = str[idx+1:] }]. *)
Definition stripSRID (str : string) : string :=
  match strings.IndexByte str ";" with
  | Some idx => strings.from str (idx + 1)
  | None => str
  end.

(** The body of [String], over the texts that the calls [g.String()]
    on the elements return, in the order of the elements. *)
Definition render (texts : slice string) : string :=
  if (len texts =? 0)%nat then "SRID=4326;GEOMETRYCOLLECTION EMPTY"
  else
    let geoms := map stripSRID (elems texts) in
    "SRID=4326;GEOMETRYCOLLECTION(" ++ strings.Join geoms "," ++ ")".

Definition texts_of (childString : Geometry -> string)
    (geometries : slice Geometry) : slice string :=
  match geometries with
  | nil_slice => nil_slice
  | mk_slice l => mk_slice (map childString l)
  end.

(** The method [String] of a value of the interface [Geometry]. *)
Fixpoint Geometry_String `{Formatter} (g : Geometry) {struct g} : string :=
  match g with
  | GeomPoint p => Point.String p
  | GeomLineString ls => LineString.String ls
  | GeomPolygon pg => Polygon.String pg
  | GeomCollection geometries => render (texts_of Geometry_String geometries)
  | GeomOther text => text
  end.

(** [func (gc *GeometryCollection) String() string] *)
Definition String `{Formatter} (gc : GeometryCollection) : string :=
  render (texts_of Geometry_String (Geometries gc)).

(** One turn of the loop over the elements (part_002
    106-182): the element read from [r], or the error returned. *)
Definition readGeometry (i : nat) (r : list byte)
  : error + (Geometry * list byte) :=
  match binary.Read_uint8 LittleEndian r with
  | inl e => inl e
  | inr (geomByteOrder, r1) =>
      match orderOf geomByteOrder with
      | None =>
          inl (fmt.Errorf ("invalid byte order " ++ fmt.d geomByteOrder
                           ++ " for geometry " ++ fmt.d (N.of_nat i)))
      | Some geomOrder =>
          match binary.Read_uint64 geomOrder r1 with
          | inl e => inl e
          | inr (geomType, r2) =>
              if (geomType =? GeometryTypePoint)%N then
                match binary.Read_float64 geomOrder r2 with
                | inl e => inl e
                | inr (lng, r3) =>
                    match binary.Read_float64 geomOrder r3 with
                    | inl e => inl e
                    | inr (lat, r4) =>
                        inr (GeomPoint {| Lng := lng; Lat := lat |}, r4)
                    end
                end
              else if (geomType =? GeometryTypeLineString)%N then
                match binary.Read_uint32 geomOrder r2 with
                | inl e => inl e
                | inr (numPoints, r3) =>
                    match readPoints geomOrder (N.to_nat numPoints) 0
                            (elems (make zeroPoint numPoints)) r3 with
                    | (_, inl e) => inl e
                    | (pts, inr r4) =>
                        inr (GeomLineString {| Points := mk_slice pts |}, r4)
                    end
                end
              else if (geomType =? GeometryTypePolygon)%N then
                match binary.Read_uint32 geomOrder r2 with
                | inl e => inl e
                | inr (numRings, r3) =>
                    match readRings geomOrder (N.to_nat numRings) 0
                            (elems (make nil_slice numRings)) r3 with
                    | (_, inl e) => inl e
                    | (rings, inr r4) =>
                        inr (GeomPolygon {| Rings := mk_slice rings |}, r4)
                    end
                end
              else
                inl (fmt.Errorf ("unsupported geometry type in collection: "
                                 ++ fmt.d geomType))
          end
      end
  end.

(** The loop [for i := uint32(0); i < numGeometries; i++], with [k]
    turns left; each element read is appended to [geoms]. *)
Fixpoint readGeometries (k i : nat) (geoms : list Geometry) (r : list byte)
  : list Geometry * (error + list byte) :=
  match k with
  | O => (geoms, inr r)
  | S k' =>
      match readGeometry i r with
      | inl e => (geoms, inl e)
      | inr (g, r') => readGeometries k' (S i) (geoms ++ [g]) r'
      end
  end.

(** [Scan] from the read of the type tag on. *)
Definition scanWKB (byteOrder : ByteOrder) (r : list byte)
    (gc : GeometryCollection) : GeometryCollection * option error :=
  match binary.Read_uint64 byteOrder r with
  | inl e => (gc, Some e)
  | inr (wkbGeometryType, r1) =>
      if negb (wkbGeometryType =? GeometryTypeGeometryCollection)%N then
        (gc, Some (fmt.Errorf
               ("invalid geometry type for GeometryCollection: "
                ++ fmt.d wkbGeometryType)))
      else
        match binary.Read_uint32 byteOrder r1 with
        | inl e => (gc, Some e)
        | inr (numGeometries, r2) =>
            let '(geoms, res) :=
              readGeometries (N.to_nat numGeometries) 0 [] r2 in
            ({| Geometries := mk_slice geoms |},
             match res with inl e => Some e | inr _ => None end)
        end
  end.

(** [Scan] from [hex.DecodeString(decode)] on. *)
Definition scanString (decode : string) (gc : GeometryCollection)
  : GeometryCollection * option error :=
  match hex.DecodeString decode with
  | inl e => (gc, Some e)
  | inr b =>
      match binary.Read_uint8 LittleEndian b with
      | inl e => (gc, Some e)
      | inr (wkbByteOrder, r) =>
          match orderOf wkbByteOrder with
          | None =>
              (gc, Some (fmt.Errorf ("invalid byte order " ++ fmt.d wkbByteOrder)))
          | Some byteOrder => scanWKB byteOrder r gc
          end
      end
  end.

(** [func (gc *GeometryCollection) Scan(val any) error] *)
Definition Scan (val : any) (gc : GeometryCollection)
  : GeometryCollection * option error :=
  match val with
  | any_nil => (gc, None)
  | any_uint8s v => scanString (string_of_list_byte v) gc
  | any_string v => scanString v gc
  | any_other T =>
      (gc, Some (fmt.Errorf ("cannot scan type " ++ T ++ " into GeometryCollection")))
  end.

(** [func (gc GeometryCollection) Value() (driver.Value, error)] *)
Definition Value `{Formatter} (gc : GeometryCollection) : string * option error :=
  (String gc, None).

End GeometryCollection.

(** ** The wire layout

    The byte strings that the decoders accept, written the way the
    tests build their inputs with [binary.Write]
    ([createGeometryCollectionWKB], geometry_collection_test.go
    110-172): a marker byte, a type tag, counts and coordinate pairs. *)

Module wire.

(** [n] bytes of [v], least significant first. *)
Fixpoint le_bytes (n : nat) (v : N) : list byte :=
  match n with
  | O => []
  | S n' => hex.mkbyte (v mod 256) :: le_bytes n' (v / 256)
  end.

(** [binary.Write(&buf, order, v)] at an unsigned integer of [size]
    bytes. *)
Definition PutUint (size : nat) (order : ByteOrder) (v : N) : list byte :=
  match order with
  | LittleEndian => le_bytes size v
  | BigEndian => rev (le_bytes size v)
  end.

Definition marker (order : ByteOrder) : byte :=
  match order with
  | BigEndian => x00
  | LittleEndian => x01
  end.

Definition point (order : ByteOrder) (p : Point) : list byte :=
  PutUint 8 order (Lng p) ++ PutUint 8 order (Lat p).

Fixpoint points (order : ByteOrder) (pts : list Point) : list byte :=
  match pts with
  | [] => []
  | p :: rest => point order p ++ points order rest
  end.

(** A ring: its point count in four bytes, then its points. *)
Definition ring (order : ByteOrder) (pts : list Point) : list byte :=
  PutUint 4 order (N.of_nat (length pts)) ++ points order pts.

Fixpoint rings (order : ByteOrder) (rs : list (list Point)) : list byte :=
  match rs with
  | [] => []
  | pts :: rest => ring order pts ++ rings order rest
  end.

(** What a collection holds after a decode: a point, a path or an
    area, each with the byte order of its own marker. *)
Inductive element : Type :=
| ePoint (order : ByteOrder) (p : Point)
| eLineString (order : ByteOrder) (pts : list Point)
| ePolygon (order : ByteOrder) (rs : list (list Point)).

Definition geometry_of (e : element) : Geometry :=
  match e with
  | ePoint _ p => GeomPoint p
  | eLineString _ pts => GeomLineString {| Points := mk_slice pts |}
  | ePolygon _ rs => GeomPolygon {| Rings := mk_slice (map mk_slice rs) |}
  end.

(** An element on the wire: marker, eight-byte tag, body. *)
Definition element_bytes (e : element) : list byte :=
  match e with
  | ePoint order p =>
      marker order :: PutUint 8 order GeometryTypePoint ++ point order p
  | eLineString order pts =>
      marker order :: PutUint 8 order GeometryTypeLineString ++ ring order pts
  | ePolygon order rs =>
      marker order :: PutUint 8 order GeometryTypePolygon
        ++ PutUint 4 order (N.of_nat (length rs)) ++ rings order rs
  end.

Fixpoint elements (es : list element) : list byte :=
  match es with
  | [] => []
  | e :: rest => element_bytes e ++ elements rest
  end.

(** Coordinates are stored in eight bytes each. *)
Definition point_ok (p : Point) : Prop := (Lng p < 2 ^ 64 /\ Lat p < 2 ^ 64)%N.

(** Counts are stored in four bytes each. *)
Definition ring_ok (pts : list Point) : Prop :=
  (N.of_nat (length pts) < 2 ^ 32)%N /\ Forall point_ok pts.

Definition element_ok (e : element) : Prop :=
  match e with
  | ePoint _ p => point_ok p
  | eLineString _ pts => ring_ok pts
  | ePolygon _ rs => (N.of_nat (length rs) < 2 ^ 32)%N /\ Forall ring_ok rs
  end.

(** The bytes that a scanned value stands for: the hexadecimal text
    of a string or of a [[]uint8], decoded. *)
Definition wkb_of (val : any) : option (list byte) :=
  match val with
  | any_uint8s v =>
      match hex.DecodeString (string_of_list_byte v) with
      | inr b => Some b
      | inl _ => None
      end
  | any_string v =>
      match hex.DecodeString v with
      | inr b => Some b
      | inl _ => None
      end
  | any_nil | any_other _ => None
  end.

(** [hex.EncodeToString]. *)
Definition hexdigit (n : N) : ascii :=
  if (n <? 10)%N then ascii_of_N (48 + n) else ascii_of_N (87 + n).

Fixpoint EncodeToString (bs : list byte) : string :=
  match bs with
  | [] => EmptyString
  | b :: rest =>
      String (hexdigit (Byte.to_N b / 16))
        (String (hexdigit (Byte.to_N b mod 16)) (EncodeToString rest))
  end.

End wire.

(** ** The generators of the tests

    The closures with which the tests build their inputs; each returns
    the hexadecimal text of a buffer filled by [binary.Write].  The
    conversion [uint32(len(x))] keeps the low four bytes, as writing
    four bytes does. *)

Module tests.

(** [createLineStringWKB] (linestring_test.go 86-109); the tag is
    written as a [uint64]. *)
Definition createLineStringWKB (byteOrder : ByteOrder) (points : slice Point)
  : string :=
  wire.EncodeToString
    (wire.marker byteOrder
     :: wire.PutUint 8 byteOrder 2
     ++ wire.PutUint 4 byteOrder (N.of_nat (len points))
     ++ wire.points byteOrder (elems points)).

(** [createPolygonWKB] (polygon_test.go 106-135). *)
Definition createPolygonWKB (byteOrder : ByteOrder) (rings : slice (slice Point))
  : string :=
  wire.EncodeToString
    (wire.marker byteOrder
     :: wire.PutUint 8 byteOrder 3
     ++ wire.PutUint 4 byteOrder (N.of_nat (len rings))
     ++ wire.rings byteOrder (map elems (elems rings))).

(** The switch on the type of an element in
    [createGeometryCollectionWKB] (geometry_collection_test.go
    129-169); an element of another type writes nothing. *)
Definition geometryWKB (byteOrder : ByteOrder) (geom : Geometry) : list byte :=
  match geom with
  | GeomPoint g =>
      wire.marker byteOrder :: wire.PutUint 8 byteOrder 1
        ++ wire.PutUint 8 byteOrder (Lng g) ++ wire.PutUint 8 byteOrder (Lat g)
  | GeomLineString g =>
      wire.marker byteOrder :: wire.PutUint 8 byteOrder 2
        ++ wire.PutUint 4 byteOrder (N.of_nat (len (Points g)))
        ++ wire.points byteOrder (elems (Points g))
  | GeomPolygon g =>
      wire.marker byteOrder :: wire.PutUint 8 byteOrder 3
        ++ wire.PutUint 4 byteOrder (N.of_nat (len (Rings g)))
        ++ wire.rings byteOrder (map elems (elems (Rings g)))
  | GeomCollection _ | GeomOther _ => []
  end.

(** [createGeometryCollectionWKB] (geometry_collection_test.go
    110-172). *)
Definition createGeometryCollectionWKB (byteOrder : ByteOrder)
    (geometries : slice Geometry) : string :=
  wire.EncodeToString
    (wire.marker byteOrder
     :: wire.PutUint 8 byteOrder 7
     ++ wire.PutUint 4 byteOrder (N.of_nat (len geometries))
     ++ concat (map (geometryWKB byteOrder) (elems geometries))).

(** A geometry whose counts fit four bytes and whose coordinates fit
    eight: what the generators write without loss. *)
Definition fits (geom : Geometry) : Prop :=
  match geom with
  | GeomPoint g => wire.point_ok g
  | GeomLineString g => wire.ring_ok (elems (Points g))
  | GeomPolygon g =>
      (N.of_nat (len (Rings g)) < 2 ^ 32)%N
      /\ Forall wire.ring_ok (map elems (elems (Rings g)))
  | GeomCollection _ | GeomOther _ => False
  end.

(** A decoded value has allocated sequences throughout; this is the
    value with every nil sequence replaced by an allocated empty one. *)
Definition allocated (geom : Geometry) : Geometry :=
  match geom with
  | GeomPoint g => GeomPoint g
  | GeomLineString g => GeomLineString {| Points := mk_slice (elems (Points g)) |}
  | GeomPolygon g =>
      GeomPolygon
        {| Rings := mk_slice (map (fun ring => mk_slice (elems ring)) (elems (Rings g))) |}
  | other => other
  end.

End tests.

(** A formatter to run the test vectors with: the text of [%v] at the
    [float64] values that are whole numbers below one million in
    magnitude, which [%v] prints as plain digits.  Other values are
    outside its domain and come out as ["?"]. *)
Module sample.

Definition whole (bits : float64) : option (bool * N) :=
  let sign := N.testbit bits 63 in
  let e := N.land (N.shiftr bits 52) 0x7FF in
  let m := N.land bits 0xFFFFFFFFFFFFF in
  if ((e =? 0) && (m =? 0))%N then Some (sign, 0)
  else if ((1023 <=? e) && (e <=? 1042))%N then
    let sig := 2 ^ 52 + m in
    let sh := 1075 - e in
    if (N.land sig (N.ones sh) =? 0)%N then Some (sign, N.shiftr sig sh) else None
  else None.

Definition format (bits : float64) : string :=
  match whole bits with
  | Some (sign, n) =>
      if (n <? 1000000)%N then (if sign then "-" else "") ++ fmt.d n else "?"
  | None => "?"
  end.

Definition formatter : Formatter := format.

End sample.

Example test_Point_Scan :
  Point.Scan (any_string "01010000000000000000289150b39526401288638860e24540") zeroPoint
  = ({| Lng := 0x402695b350912800; Lat := 0x4045e26088638812 |}, returns None).
Proof. vm_compute. reflexivity. Qed.

Example test_Polygon_String :
  @Polygon.String sample.formatter
    {| Rings := mk_slice [mk_slice
         [ {| Lng := 0; Lat := 0 |};
           {| Lng := 0x3FF0000000000000; Lat := 0 |};
           {| Lng := 0x3FF0000000000000; Lat := 0x3FF0000000000000 |};
           {| Lng := 0; Lat := 0x3FF0000000000000 |};
           {| Lng := 0; Lat := 0 |} ]] |}
  = "SRID=4326;POLYGON((0 0,1 0,1 1,0 1,0 0))".
Proof. vm_compute. reflexivity. Qed.

Example test_GeometryCollection_String :
  @GeometryCollection.String sample.formatter
    {| Geometries := mk_slice
         [ GeomPoint {| Lng := 0x4000000000000000; Lat := 0 |};
           GeomLineString {| Points := mk_slice
             [ {| Lng := 0; Lat := 0 |};
               {| Lng := 0x3FF0000000000000; Lat := 0x3FF0000000000000 |} ] |} ] |}
  = "SRID=4326;GEOMETRYCOLLECTION(POINT(2 0),LINESTRING(0 0,1 1))".
Proof. vm_compute. reflexivity. Qed.

(** Inputs of the package's tests, with what the decoders return. *)

Example test_Point_Scan_big_endian :
  Point.Scan (any_string "000000000000000001402695b3509128004045e26088638812") zeroPoint
  = ({| Lng := 0x402695b350912800; Lat := 0x4045e26088638812 |}, returns None).
Proof. vm_compute. reflexivity. Qed.

Example test_Scan_invalid_byte_order :
  let hexStr := "020000000000000000000000000000000000000000"%string in
  Point.Scan (any_string hexStr) zeroPoint
  = (zeroPoint, returns (Some (errorString "invalid byte order 2")))
  /\ LineString.Scan (any_string hexStr) {| Points := nil_slice |}
     = ({| Points := nil_slice |}, Some (errorString "invalid byte order 2"))
  /\ Polygon.Scan (any_string hexStr) {| Rings := nil_slice |}
     = ({| Rings := nil_slice |}, Some (errorString "invalid byte order 2"))
  /\ GeometryCollection.Scan (any_string hexStr) {| Geometries := nil_slice |}
     = ({| Geometries := nil_slice |}, Some (errorString "invalid byte order 2")).
Proof. vm_compute. repeat split. Qed.

Example test_Scan_malformed_text :
  Point.Scan (any_string "invalid_hex") zeroPoint
  = (zeroPoint, returns (Some (hex_InvalidByteError "i"%byte)))
  /\ Point.Scan (any_string "") zeroPoint = (zeroPoint, returns (Some io_EOF))
  /\ Polygon.Scan (any_string "abc") {| Rings := nil_slice |}
     = ({| Rings := nil_slice |}, Some hex_ErrLength).
Proof. vm_compute. repeat split. Qed.

Example test_LineString_Scan_wrong_geometry_type :
  LineString.Scan
    (any_string "01010000000000000000000000000000000000000000000000")
    {| Points := nil_slice |}
  = ({| Points := nil_slice |},
     Some (errorString "invalid geometry type for LineString: 1")).
Proof. vm_compute. reflexivity. Qed.

Example test_GeometryCollection_Scan_unsupported_geometry :
  GeometryCollection.Scan
    (any_string
       "010700000000000000010000000104000000000000000000000000000000000000000000000000")
    {| Geometries := nil_slice |}
  = ({| Geometries := mk_slice [] |},
     Some (errorString "unsupported geometry type in collection: 4")).
Proof. vm_compute. reflexivity. Qed.

(** * Properties *)

Local Close Scope string_scope.
Local Open Scope N_scope.

(** ** Bytes and fixed-size integers *)

Lemma mkbyte_to_N (b : byte) : hex.mkbyte (Byte.to_N b) = b.
Proof.
  unfold hex.mkbyte.
  rewrite <- ascii_of_byte_via_N.
  apply byte_of_ascii_of_byte.
Qed.

Lemma to_N_mkbyte (n : N) : n < 256 -> Byte.to_N (hex.mkbyte n) = n.
Proof.
  intros Hn. unfold hex.mkbyte.
  apply Byte.to_of_N.
  rewrite byte_of_ascii_via_N.
  now rewrite N_ascii_embedding.
Qed.

Lemma to_N_lt (b : byte) : Byte.to_N b < 256.
Proof. pose proof (Byte.to_N_bounded b). lia. Qed.

Lemma length_le_bytes (n : nat) (v : N) : length (wire.le_bytes n v) = n.
Proof. revert v. induction n as [|n IH]; intros v; simpl; [|rewrite IH]; reflexivity. Qed.

Lemma length_PutUint size order v : length (wire.PutUint size order v) = size.
Proof.
  destruct order; simpl; [rewrite length_rev|]; apply length_le_bytes.
Qed.

Lemma le_value_lt (bs : list byte) : binary.le_value bs < 256 ^ N.of_nat (length bs).
Proof.
  induction bs as [|b bs IH]; simpl binary.le_value; [simpl; lia|].
  replace (N.of_nat (length (b :: bs))) with (N.succ (N.of_nat (length bs)))
    by (simpl length; lia).
  rewrite N.pow_succ_r'.
  pose proof (to_N_lt b). lia.
Qed.

Lemma le_bytes_le_value (bs : list byte) :
  wire.le_bytes (length bs) (binary.le_value bs) = bs.
Proof.
  induction bs as [|b bs IH]; [reflexivity|].
  cbn [length wire.le_bytes binary.le_value].
  pose proof (to_N_lt b) as Hb.
  rewrite (N.mul_comm 256), N.Div0.mod_add, N.div_add by lia.
  rewrite N.mod_small, N.div_small by assumption.
  rewrite mkbyte_to_N, N.add_0_l. now rewrite IH.
Qed.

Lemma le_value_le_bytes (n : nat) (v : N) :
  v < 256 ^ N.of_nat n -> binary.le_value (wire.le_bytes n v) = v.
Proof.
  revert v. induction n as [|n IH]; intros v Hv.
  - simpl in *. lia.
  - replace (N.of_nat (S n)) with (N.succ (N.of_nat n)) in Hv by lia.
    rewrite N.pow_succ_r' in Hv.
    cbn [wire.le_bytes binary.le_value].
    rewrite to_N_mkbyte by (apply N.mod_lt; lia).
    rewrite IH by (apply N.Div0.div_lt_upper_bound; lia).
    pose proof (N.div_mod' v 256). lia.
Qed.

Lemma Uint_PutUint size order v :
  v < 256 ^ N.of_nat size -> binary.Uint order (wire.PutUint size order v) = v.
Proof.
  intros Hv. destruct order; simpl; [rewrite rev_involutive|];
    now apply le_value_le_bytes.
Qed.

Lemma PutUint_Uint order (bs : list byte) :
  wire.PutUint (length bs) order (binary.Uint order bs) = bs.
Proof.
  destruct order; simpl.
  - rewrite <- (length_rev bs), le_bytes_le_value. apply rev_involutive.
  - apply le_bytes_le_value.
Qed.

Lemma Uint_lt order (bs : list byte) :
  binary.Uint order bs < 256 ^ N.of_nat (length bs).
Proof.
  destruct order; simpl; [rewrite <- (length_rev bs)|]; apply le_value_lt.
Qed.

(** ** Reading from the buffer *)

Lemma ReadFull_app (bs r : list byte) :
  io.ReadFull (length bs) (bs ++ r) = inr (bs, r).
Proof.
  unfold io.ReadFull.
  rewrite length_app.
  destruct (Nat.leb_spec (length bs) (length bs + length r)) as [_|]; [|lia].
  now rewrite take_app_length, drop_app_length.
Qed.

Lemma ReadFull_inv n (r bs r' : list byte) :
  io.ReadFull n r = inr (bs, r') -> r = bs ++ r' /\ length bs = n.
Proof.
  unfold io.ReadFull.
  destruct (Nat.leb_spec n (length r)) as [Hle|Hlt].
  - intros [= <- <-]. split; [now rewrite take_drop|].
    rewrite length_take. lia.
  - destruct r; discriminate.
Qed.

Lemma Read_PutUint size order v (r : list byte) :
  v < 256 ^ N.of_nat size ->
  binary.Read size order (wire.PutUint size order v ++ r) = inr (v, r).
Proof.
  intros Hv. unfold binary.Read.
  rewrite <- (length_PutUint size order v) at 1.
  rewrite ReadFull_app, Uint_PutUint by assumption.
  reflexivity.
Qed.

Lemma Read_inv size order (r : list byte) v r' :
  binary.Read size order r = inr (v, r') ->
  r = wire.PutUint size order v ++ r' /\ v < 256 ^ N.of_nat size.
Proof.
  unfold binary.Read.
  destruct (io.ReadFull size r) as [e|[bs r1]] eqn:E; [discriminate|].
  intros [= <- <-].
  apply ReadFull_inv in E as [-> <-].
  split; [now rewrite PutUint_Uint | apply Uint_lt].
Qed.

(** ** The loop over coordinate pairs *)

Lemma alter_Lng_Lat (lng lat : float64) (j : nat) (pts : list Point) :
  alter (fun pt => {| Lng := Lng pt; Lat := lat |}) j
    (alter (fun pt => {| Lng := lng; Lat := Lat pt |}) j pts)
  = <[j := {| Lng := lng; Lat := lat |}]> pts.
Proof.
  revert j. induction pts as [|p pts IH]; intros [|j]; simpl; try reflexivity.
  f_equal. apply IH.
Qed.

Lemma take_S_insert {A} (l : list A) (j : nat) (x : A) :
  (j < length l)%nat -> take (S j) (<[j := x]> l) = take j l ++ [x].
Proof.
  intros Hj.
  rewrite (take_S_r _ j x) by now apply list_lookup_insert_eq.
  now rewrite take_insert_ge by lia.
Qed.

Lemma readPoints_wire order (pts base : list Point) (j : nat) (r : list byte) :
  Forall wire.point_ok pts ->
  (j + length pts <= length base)%nat ->
  readPoints order (length pts) j base (wire.points order pts ++ r)
  = (take j base ++ pts ++ drop (j + length pts) base, inr r).
Proof.
  intros Hok. revert j base.
  induction Hok as [|[lng lat] pts [Hlng Hlat] _ IH]; intros j base Hlen.
  - simpl. now rewrite Nat.add_0_r, take_drop.
  - cbn [length readPoints wire.points] in *.
    unfold binary.Read_float64, wire.point. cbn [Lng Lat].
    rewrite <- !app_assoc.
    rewrite Read_PutUint by exact Hlng.
    rewrite Read_PutUint by exact Hlat.
    rewrite alter_Lng_Lat.
    rewrite IH by (rewrite length_insert; lia).
    rewrite take_S_insert by lia.
    rewrite drop_insert_lt by lia.
    rewrite <- app_assoc. simpl.
    now replace (S (j + length pts)) with (j + S (length pts))%nat by lia.
Qed.

Lemma readPoints_inv order (k j : nat) (base : list Point) (r : list byte) pts' r' :
  readPoints order k j base r = (pts', inr r') ->
  (j + k <= length base)%nat ->
  exists dec : list Point,
    length dec = k /\ Forall wire.point_ok dec
    /\ r = wire.points order dec ++ r'
    /\ pts' = take j base ++ dec ++ drop (j + k) base.
Proof.
  revert j base r. induction k as [|k IH]; intros j base r.
  - simpl. intros [= <- <-] _. exists [].
    repeat split; [constructor|]. simpl. now rewrite Nat.add_0_r, take_drop.
  - cbn [readPoints]. unfold binary.Read_float64.
    destruct (binary.Read 8 order r) as [e|[lng r1]] eqn:E1; [discriminate|].
    destruct (binary.Read 8 order r1) as [e|[lat r2]] eqn:E2; [discriminate|].
    rewrite alter_Lng_Lat. intros Hrec Hlen.
    apply IH in Hrec as (dec & Hk & Hok & -> & ->); [|rewrite length_insert; lia].
    apply Read_inv in E1 as [-> Hlng], E2 as [-> Hlat].
    exists ({| Lng := lng; Lat := lat |} :: dec).
    repeat split.
    + simpl. now rewrite Hk.
    + constructor; [split; assumption | assumption].
    + cbn [wire.points]. unfold wire.point. cbn [Lng Lat].
      now rewrite <- !app_assoc.
    + rewrite take_S_insert by lia.
      rewrite drop_insert_lt by lia.
      rewrite <- app_assoc. simpl.
      now replace (S (j + k)) with (j + S k)%nat by lia.
Qed.

(** The loop as the decoders start it: on a freshly made slice. *)
Lemma readPoints_make_wire order (pts : list Point) (r : list byte) :
  Forall wire.point_ok pts ->
  readPoints order (length pts) 0 (replicate (length pts) zeroPoint)
    (wire.points order pts ++ r)
  = (pts, inr r).
Proof.
  intros Hok.
  rewrite readPoints_wire by (rewrite ?length_replicate; trivial).
  rewrite take_0, drop_ge by (rewrite length_replicate; simpl; lia).
  simpl. now rewrite app_nil_r.
Qed.

Lemma readPoints_make_inv order (n : nat) (r : list byte) pts r' :
  readPoints order n 0 (replicate n zeroPoint) r = (pts, inr r') ->
  length pts = n /\ Forall wire.point_ok pts /\ r = wire.points order pts ++ r'.
Proof.
  intros H.
  apply readPoints_inv in H as (dec & Hk & Hok & -> & ->);
    [|rewrite length_replicate; simpl; lia].
  rewrite take_0, drop_ge by (rewrite length_replicate; simpl; lia).
  simpl. rewrite app_nil_r. auto.
Qed.

(** ** The loop over rings *)

Lemma elems_make {A} (zero : A) (n : N) :
  elems (make zero n) = replicate (N.to_nat n) zero.
Proof. reflexivity. Qed.

Lemma readRings_wire order (rs : list (list Point)) (base : list (slice Point))
    (i : nat) (r : list byte) :
  Forall wire.ring_ok rs ->
  (i + length rs <= length base)%nat ->
  readRings order (length rs) i base (wire.rings order rs ++ r)
  = (take i base ++ map mk_slice rs ++ drop (i + length rs) base, inr r).
Proof.
  intros Hok. revert i base.
  induction Hok as [|pts rs [Hn Hpts] _ IH]; intros i base Hlen.
  - simpl. now rewrite Nat.add_0_r, take_drop.
  - cbn [length readRings wire.rings map] in *.
    unfold binary.Read_uint32, wire.ring.
    rewrite <- !app_assoc.
    rewrite Read_PutUint by exact Hn.
    rewrite elems_make, Nat2N.id.
    rewrite readPoints_make_wire by assumption.
    rewrite IH by (rewrite length_insert; lia).
    rewrite take_S_insert by lia.
    rewrite drop_insert_lt by lia.
    rewrite <- app_assoc. simpl.
    now replace (S (i + length rs)) with (i + S (length rs))%nat by lia.
Qed.

Lemma readRings_inv order (k i : nat) (base : list (slice Point))
    (r : list byte) rings' r' :
  readRings order k i base r = (rings', inr r') ->
  (i + k <= length base)%nat ->
  exists rs : list (list Point),
    length rs = k /\ Forall wire.ring_ok rs
    /\ r = wire.rings order rs ++ r'
    /\ rings' = take i base ++ map mk_slice rs ++ drop (i + k) base.
Proof.
  revert i base r. induction k as [|k IH]; intros i base r.
  - simpl. intros [= <- <-] _. exists [].
    repeat split; [constructor|]. simpl. now rewrite Nat.add_0_r, take_drop.
  - cbn [readRings]. unfold binary.Read_uint32.
    destruct (binary.Read 4 order r) as [e|[numPoints r1]] eqn:E1; [discriminate|].
    rewrite elems_make.
    destruct (readPoints order (N.to_nat numPoints) 0
                (replicate (N.to_nat numPoints) zeroPoint) r1)
      as [pts [e|r2]] eqn:E2; [discriminate|].
    intros Hrec Hlen.
    apply IH in Hrec as (rs & Hk & Hok & -> & ->); [|rewrite length_insert; lia].
    apply Read_inv in E1 as [-> Hn].
    apply readPoints_make_inv in E2 as (Hlenpts & Hpts & ->).
    assert (Hcount : N.of_nat (length pts) = numPoints)
      by (rewrite Hlenpts; apply N2Nat.id).
    exists (pts :: rs).
    repeat split.
    + simpl. now rewrite Hk.
    + constructor; [|assumption]. split; [now rewrite Hcount | assumption].
    + cbn [wire.rings]. unfold wire.ring.
      now rewrite Hcount, <- !app_assoc.
    + rewrite take_S_insert by lia.
      rewrite drop_insert_lt by lia.
      rewrite <- app_assoc. simpl.
      now replace (S (i + k)) with (i + S k)%nat by lia.
Qed.

Lemma readRings_make_wire order (rs : list (list Point)) (r : list byte) :
  Forall wire.ring_ok rs ->
  readRings order (length rs) 0 (replicate (length rs) nil_slice)
    (wire.rings order rs ++ r)
  = (map mk_slice rs, inr r).
Proof.
  intros Hok.
  rewrite readRings_wire by (rewrite ?length_replicate; trivial).
  rewrite take_0, drop_ge by (rewrite length_replicate; simpl; lia).
  simpl. now rewrite app_nil_r.
Qed.

Lemma readRings_make_inv order (n : nat) (r : list byte) rings r' :
  readRings order n 0 (replicate n nil_slice) r = (rings, inr r') ->
  exists rs : list (list Point),
    rings = map mk_slice rs /\ length rs = n /\ Forall wire.ring_ok rs
    /\ r = wire.rings order rs ++ r'.
Proof.
  intros H.
  apply readRings_inv in H as (rs & Hk & Hok & -> & ->);
    [|rewrite length_replicate; simpl; lia].
  rewrite take_0, drop_ge by (rewrite length_replicate; simpl; lia).
  exists rs. simpl. rewrite app_nil_r. auto.
Qed.

(** ** The elements of a collection *)

Lemma Read_uint8_cons (b : byte) (r : list byte) :
  binary.Read_uint8 LittleEndian (b :: r) = inr (Byte.to_N b, r).
Proof.
  unfold binary.Read_uint8, binary.Read, io.ReadFull. simpl.
  now rewrite N.add_0_r.
Qed.

Lemma orderOf_marker order : orderOf (Byte.to_N (wire.marker order)) = Some order.
Proof. now destruct order. Qed.

Lemma orderOf_Some_inv (m : N) order :
  orderOf m = Some order -> wire.PutUint 1 LittleEndian m = [wire.marker order].
Proof.
  destruct m as [|[p|p|]]; simpl; try discriminate; now intros [= <-].
Qed.

Lemma readGeometry_wire (e : wire.element) (i : nat) (r : list byte) :
  wire.element_ok e ->
  GeometryCollection.readGeometry i (wire.element_bytes e ++ r)
  = inr (wire.geometry_of e, r).
Proof.
  unfold GeometryCollection.readGeometry.
  destruct e as [order [lng lat]|order pts|order rs];
    cbn [wire.element_bytes wire.element_ok wire.geometry_of];
    rewrite <- app_comm_cons, Read_uint8_cons, orderOf_marker;
    unfold binary.Read_uint64, binary.Read_uint32, binary.Read_float64;
    rewrite <- !app_assoc.
  - intros [Hlng Hlat]. cbn [Lng Lat] in *.
    rewrite Read_PutUint by (vm_compute; reflexivity).
    cbn [N.eqb GeometryTypePoint Pos.eqb].
    unfold wire.point. cbn [Lng Lat]. rewrite <- !app_assoc.
    rewrite Read_PutUint by exact Hlng.
    now rewrite Read_PutUint by exact Hlat.
  - intros [Hn Hpts].
    rewrite Read_PutUint by (vm_compute; reflexivity).
    cbn [N.eqb GeometryTypePoint GeometryTypeLineString Pos.eqb].
    unfold wire.ring. rewrite <- !app_assoc.
    rewrite Read_PutUint by exact Hn.
    rewrite elems_make, Nat2N.id.
    now rewrite readPoints_make_wire by assumption.
  - intros [Hn Hrs].
    rewrite Read_PutUint by (vm_compute; reflexivity).
    cbn [N.eqb GeometryTypePoint GeometryTypeLineString GeometryTypePolygon Pos.eqb].
    rewrite Read_PutUint by exact Hn.
    rewrite elems_make, Nat2N.id.
    now rewrite readRings_make_wire by assumption.
Qed.

Lemma readGeometry_inv (i : nat) (r : list byte) g r' :
  GeometryCollection.readGeometry i r = inr (g, r') ->
  exists e : wire.element,
    wire.element_ok e /\ g = wire.geometry_of e /\ r = wire.element_bytes e ++ r'.
Proof.
  unfold GeometryCollection.readGeometry,
    binary.Read_uint8, binary.Read_uint64, binary.Read_uint32, binary.Read_float64.
  destruct (binary.Read 1 LittleEndian r) as [e|[m r1]] eqn:E0; [discriminate|].
  destruct (orderOf m) as [order|] eqn:Em; [|discriminate].
  destruct (binary.Read 8 order r1) as [e|[ty r2]] eqn:E1; [discriminate|].
  apply Read_inv in E0 as [-> _], E1 as [-> _].
  rewrite (orderOf_Some_inv _ _ Em).
  destruct (N.eqb_spec ty GeometryTypePoint) as [->|_].
  { destruct (binary.Read 8 order r2) as [e|[lng r3]] eqn:E2; [discriminate|].
    destruct (binary.Read 8 order r3) as [e|[lat r4]] eqn:E3; [discriminate|].
    intros [= <- <-].
    apply Read_inv in E2 as [-> Hlng], E3 as [-> Hlat].
    exists (wire.ePoint order {| Lng := lng; Lat := lat |}).
    repeat split; try assumption.
    cbn [wire.element_bytes app]. unfold wire.point. cbn [Lng Lat].
    now rewrite <- !app_assoc. }
  destruct (N.eqb_spec ty GeometryTypeLineString) as [->|_].
  { destruct (binary.Read 4 order r2) as [e|[n r3]] eqn:E2; [discriminate|].
    rewrite elems_make.
    destruct (readPoints order (N.to_nat n) 0 (replicate (N.to_nat n) zeroPoint) r3)
      as [pts [e|r4]] eqn:E3; [discriminate|].
    intros [= <- <-].
    apply Read_inv in E2 as [-> Hn].
    apply readPoints_make_inv in E3 as (Hlen & Hpts & ->).
    assert (Hcount : N.of_nat (length pts) = n) by (rewrite Hlen; apply N2Nat.id).
    exists (wire.eLineString order pts).
    repeat split; try assumption; [now rewrite Hcount|].
    cbn [wire.element_bytes app]. unfold wire.ring.
    now rewrite Hcount, <- !app_assoc. }
  destruct (N.eqb_spec ty GeometryTypePolygon) as [->|_]; [|discriminate].
  destruct (binary.Read 4 order r2) as [e|[n r3]] eqn:E2; [discriminate|].
  rewrite elems_make.
  destruct (readRings order (N.to_nat n) 0 (replicate (N.to_nat n) nil_slice) r3)
    as [rings [e|r4]] eqn:E3; [discriminate|].
  intros [= <- <-].
  apply Read_inv in E2 as [-> Hn].
  apply readRings_make_inv in E3 as (rs & -> & Hlen & Hrs & ->).
  assert (Hcount : N.of_nat (length rs) = n) by (rewrite Hlen; apply N2Nat.id).
  exists (wire.ePolygon order rs).
  repeat split; try assumption; [now rewrite Hcount|].
  cbn [wire.element_bytes app].
  now rewrite Hcount, <- !app_assoc.
Qed.

Lemma readGeometries_wire (es : list wire.element) (i : nat)
    (geoms : list Geometry) (r : list byte) :
  Forall wire.element_ok es ->
  GeometryCollection.readGeometries (length es) i geoms (wire.elements es ++ r)
  = (geoms ++ map wire.geometry_of es, inr r).
Proof.
  intros Hok. revert i geoms.
  induction Hok as [|e es He _ IH]; intros i geoms.
  - simpl. now rewrite app_nil_r.
  - cbn [length GeometryCollection.readGeometries wire.elements map].
    rewrite <- app_assoc, readGeometry_wire by exact He.
    rewrite IH, <- app_assoc. reflexivity.
Qed.

Lemma readGeometries_inv (k i : nat) (geoms : list Geometry) (r : list byte)
    geoms' r' :
  GeometryCollection.readGeometries k i geoms r = (geoms', inr r') ->
  exists es : list wire.element,
    length es = k /\ Forall wire.element_ok es
    /\ r = wire.elements es ++ r'
    /\ geoms' = geoms ++ map wire.geometry_of es.
Proof.
  revert i geoms r. induction k as [|k IH]; intros i geoms r.
  - simpl. intros [= <- <-]. exists []. simpl. rewrite app_nil_r. auto.
  - cbn [GeometryCollection.readGeometries].
    destruct (GeometryCollection.readGeometry i r) as [e|[g r1]] eqn:E; [discriminate|].
    intros Hrec.
    apply IH in Hrec as (es & Hk & Hok & -> & ->).
    apply readGeometry_inv in E as (e & He & -> & ->).
    exists (e :: es). simpl. rewrite Hk, <- !app_assoc. auto.
Qed.

(** The first [k] turns of the loop, then the remaining ones. *)
Lemma readGeometries_add (k m i : nat) (geoms : list Geometry) (r : list byte) :
  GeometryCollection.readGeometries (k + m) i geoms r
  = match GeometryCollection.readGeometries k i geoms r with
    | (geoms', inl e) => (geoms', inl e)
    | (geoms', inr r') => GeometryCollection.readGeometries m (i + k) geoms' r'
    end.
Proof.
  revert i geoms r. induction k as [|k IH]; intros i geoms r.
  - simpl. now rewrite Nat.add_0_r.
  - cbn [Nat.add GeometryCollection.readGeometries].
    destruct (GeometryCollection.readGeometry i r) as [e|[g r1]]; [reflexivity|].
    rewrite IH. now replace (S i + k)%nat with (i + S k)%nat by lia.
Qed.

(** An element that cannot be read, after elements that can, ends the
    loop with its error whatever follows. *)
Lemma readGeometries_stops (es : list wire.element) (n i : nat)
    (geoms : list Geometry) (r : list byte) (e : error) :
  Forall wire.element_ok es ->
  (length es < n)%nat ->
  GeometryCollection.readGeometry (i + length es) r = inl e ->
  GeometryCollection.readGeometries n i geoms (wire.elements es ++ r)
  = (geoms ++ map wire.geometry_of es, inl e).
Proof.
  intros Hok Hn He.
  replace n with (length es + S (n - S (length es)))%nat by lia.
  rewrite readGeometries_add, readGeometries_wire by assumption.
  cbn [GeometryCollection.readGeometries]. now rewrite He.
Qed.


Lemma readGeometry_bad_tag (i : nat) order (ty : N) (r : list byte) :
  ty < 2 ^ 64 ->
  ty <> GeometryTypePoint -> ty <> GeometryTypeLineString ->
  ty <> GeometryTypePolygon ->
  GeometryCollection.readGeometry i
    (wire.marker order :: wire.PutUint 8 order ty ++ r)
  = inl (fmt.Errorf ("unsupported geometry type in collection: " ++ fmt.d ty)%string).
Proof.
  intros Hty H1 H2 H3. unfold GeometryCollection.readGeometry.
  rewrite Read_uint8_cons, orderOf_marker.
  unfold binary.Read_uint64. rewrite Read_PutUint by exact Hty.
  destruct (N.eqb_spec ty GeometryTypePoint); [contradiction|].
  destruct (N.eqb_spec ty GeometryTypeLineString); [contradiction|].
  destruct (N.eqb_spec ty GeometryTypePolygon); [contradiction|].
  reflexivity.
Qed.

(** ** Hexadecimal text *)

Lemma hex_pair (b : byte) :
  hex.fromHexChar (wire.hexdigit (Byte.to_N b / 16)) = Some (Byte.to_N b / 16)
  /\ hex.fromHexChar (wire.hexdigit (Byte.to_N b mod 16)) = Some (Byte.to_N b mod 16)
  /\ hex.mkbyte (Byte.to_N b / 16 * 16 + Byte.to_N b mod 16) = b.
Proof. destruct b; vm_compute; auto. Qed.

Lemma DecodeString_EncodeToString (bs : list byte) :
  hex.DecodeString (wire.EncodeToString bs) = inr bs.
Proof.
  induction bs as [|b bs IH]; [reflexivity|].
  cbn [wire.EncodeToString hex.DecodeString].
  destruct (hex_pair b) as (-> & -> & ->).
  now rewrite IH.
Qed.

(** ** Scanning [nil] and values of other types *)

(** C8.  [Scan(nil)] returns no error and leaves the receiver as it
    was, for each of the four shapes; a zero-valued receiver keeps its
    nil sequences, whose length is zero. *)
Theorem Scan_nil_leaves_receiver :
  (forall p, Point.Scan any_nil p = (p, returns None))
  /\ (forall ls, LineString.Scan any_nil ls = (ls, None))
  /\ (forall pg, Polygon.Scan any_nil pg = (pg, None))
  /\ (forall gc, GeometryCollection.Scan any_nil gc = (gc, None))
  /\ fst (Point.Scan any_nil zeroPoint) = zeroPoint
  /\ Points (fst (LineString.Scan any_nil {| Points := nil_slice |})) = nil_slice
  /\ Rings (fst (Polygon.Scan any_nil {| Rings := nil_slice |})) = nil_slice
  /\ Geometries (fst (GeometryCollection.Scan any_nil {| Geometries := nil_slice |}))
     = nil_slice
  /\ len (@nil_slice Point) = 0%nat.
Proof. repeat split. Qed.

(** The three decoders with a type switch answer a value of another
    type with an error that names the type, and leave the receiver as
    it was. *)
Lemma Scan_other_type_is_an_error (T : string) :
  (forall ls, LineString.Scan (any_other T) ls
     = (ls, Some (errorString ("cannot scan type " ++ T ++ " into LineString")%string)))
  /\ (forall pg, Polygon.Scan (any_other T) pg
     = (pg, Some (errorString ("cannot scan type " ++ T ++ " into Polygon")%string)))
  /\ (forall gc, GeometryCollection.Scan (any_other T) gc
     = (gc, Some (errorString
                    ("cannot scan type " ++ T ++ " into GeometryCollection")%string))).
Proof. repeat split. Qed.

(** C2.  [Point.Scan] has no such switch: on a value that is neither
    nil, nor a [[]uint8], nor a string, such as the [int] of
    [p.Scan(12345)], the assertion [val.(string)] panics; no error is
    returned. *)
Theorem Point_Scan_other_type_panics :
  Point.Scan (any_other "int") zeroPoint = (zeroPoint, panics "int")
  /\ forall T p, Point.Scan (any_other T) p = (p, panics T).
Proof. split; reflexivity. Qed.

(** ** The type tag of a point *)

(** [Point.Scan] reads the eight bytes of the tag and goes on to the
    coordinates whatever the tag is. *)
Lemma Point_scanWKB_any_tag order (ty : N) (pt p : Point) (r : list byte) :
  ty < 2 ^ 64 -> wire.point_ok pt ->
  Point.scanWKB order (wire.PutUint 8 order ty ++ wire.point order pt ++ r) p
  = (pt, None).
Proof.
  intros Hty [Hlng Hlat]. unfold Point.scanWKB, binary.Read_uint64.
  rewrite Read_PutUint by exact Hty.
  unfold Point.Read_struct.
  replace 16%nat with (length (wire.point order pt))
    by (unfold wire.point; rewrite length_app, !length_PutUint; reflexivity).
  rewrite ReadFull_app. unfold wire.point.
  rewrite take_app_length', drop_app_length' by now rewrite length_PutUint.
  rewrite !Uint_PutUint by assumption.
  now destruct pt.
Qed.

(** C1.  A stream with a valid marker and the tag 3 of a polygon,
    followed by sixteen bytes, is decoded by [Point.Scan] without
    error: the sixteen bytes are read as the coordinates. *)
Theorem Point_Scan_accepts_polygon_tag :
  Point.Scan
    (any_string "010300000000000000000000000000f03f0000000000000040") zeroPoint
  = ({| Lng := 0x3FF0000000000000; Lat := 0x4000000000000000 |}, returns None).
Proof. vm_compute. reflexivity. Qed.

(** ** The text encoders *)

(** C10.  A point always renders with both coordinates between the
    parentheses and never as the EMPTY form; the zero point renders as
    [POINT(0 0)], [%v] printing the float zero as ["0"]. *)
Theorem Point_String_has_no_EMPTY `{Formatter} :
  forall p : Point,
    Point.String p
    = ("SRID=4326;POINT(" ++ fmt_v (Lng p) ++ " " ++ fmt_v (Lat p) ++ ")")%string
    /\ Point.String p <> "SRID=4326;POINT EMPTY"%string
    /\ (fmt_v 0 = "0"%string ->
        Point.String zeroPoint = "SRID=4326;POINT(0 0)"%string
        /\ Point.String zeroPoint <> "SRID=4326;POINT EMPTY"%string).
Proof.
  intros p. split; [reflexivity|]. split.
  - unfold Point.String. simpl. intros Heq. discriminate Heq.
  - intros H0. split.
    + unfold Point.String, zeroPoint. cbn [Lng Lat]. now rewrite H0.
    + unfold Point.String. simpl. intros Heq. discriminate Heq.
Qed.

Lemma Point_String_has_no_EMPTY_witness :
  @fmt_v sample.formatter 0 = "0"%string
  /\ @Point.String sample.formatter zeroPoint = "SRID=4326;POINT(0 0)"%string.
Proof.
  split; [reflexivity|].
  apply (@Point_String_has_no_EMPTY sample.formatter zeroPoint).
  reflexivity.
Defined.

Lemma len_texts_of (f : Geometry -> string) (geometries : slice Geometry) :
  len (GeometryCollection.texts_of f geometries) = len geometries.
Proof. destruct geometries; simpl; [reflexivity | apply length_map]. Qed.

(** C6.  A path, an area or a collection whose sequence has length
    zero renders as its keyword followed by EMPTY, after the SRID
    prefix; a nil sequence and an allocated empty one render alike. *)
Theorem zero_length_renders_EMPTY `{Formatter} :
  (forall ls, len (Points ls) = 0%nat ->
     LineString.String ls = "SRID=4326;LINESTRING EMPTY"%string)
  /\ (forall pg, len (Rings pg) = 0%nat ->
     Polygon.String pg = "SRID=4326;POLYGON EMPTY"%string)
  /\ (forall gc, len (Geometries gc) = 0%nat ->
     GeometryCollection.String gc = "SRID=4326;GEOMETRYCOLLECTION EMPTY"%string)
  /\ LineString.String {| Points := nil_slice |}
     = LineString.String {| Points := mk_slice [] |}
  /\ Polygon.String {| Rings := nil_slice |}
     = Polygon.String {| Rings := mk_slice [] |}
  /\ GeometryCollection.String {| Geometries := nil_slice |}
     = GeometryCollection.String {| Geometries := mk_slice [] |}.
Proof.
  repeat split.
  - intros ls Hlen. unfold LineString.String. now rewrite Hlen.
  - intros pg Hlen. unfold Polygon.String. now rewrite Hlen.
  - intros gc Hlen. unfold GeometryCollection.String, GeometryCollection.render.
    now rewrite len_texts_of, Hlen.
Qed.

Lemma zero_length_renders_EMPTY_witness :
  len (Points {| Points := mk_slice [] |}) = 0%nat
  /\ @LineString.String sample.formatter {| Points := mk_slice [] |}
     = "SRID=4326;LINESTRING EMPTY"%string
  /\ @Polygon.String sample.formatter {| Rings := nil_slice |}
     = "SRID=4326;POLYGON EMPTY"%string
  /\ @GeometryCollection.String sample.formatter {| Geometries := mk_slice [] |}
     = "SRID=4326;GEOMETRYCOLLECTION EMPTY"%string.
Proof.
  pose proof (@zero_length_renders_EMPTY sample.formatter) as (Hls & Hpg & Hgc & _).
  split; [reflexivity|]. split; [|split].
  - apply Hls. reflexivity.
  - apply Hpg. reflexivity.
  - apply Hgc. reflexivity.
Defined.

(** *** The prefix of a child *)

Lemma IndexByte_absent (s : string) (c : ascii) :
  ~ In c (list_ascii_of_string s) -> strings.IndexByte s c = None.
Proof.
  induction s as [|a s IH]; simpl; [reflexivity|]. intros Hnot.
  destruct (Ascii.eqb_spec a c) as [->|_]; [exfalso; auto|].
  now rewrite IH by auto.
Qed.

Lemma IndexByte_first (a b : string) (c : ascii) :
  ~ In c (list_ascii_of_string a) ->
  strings.IndexByte (a ++ String c b) c = Some (String.length a).
Proof.
  induction a as [|x a IH]; simpl; intros Hnot.
  - now rewrite Ascii.eqb_refl.
  - destruct (Ascii.eqb_spec x c) as [->|_]; [exfalso; auto|].
    now rewrite IH by auto.
Qed.

Lemma from_after (a b : string) (c : ascii) :
  strings.from (a ++ String c b) (String.length a + 1) = b.
Proof. induction a as [|x a IH]; simpl; [now destruct b | exact IH]. Qed.

Lemma String_starts_with_SRID `{Formatter} (g : Geometry) :
  (forall text, g <> GeomOther text) ->
  exists body : string,
    GeometryCollection.Geometry_String g = ("SRID=4326;" ++ body)%string
    /\ GeometryCollection.stripSRID (GeometryCollection.Geometry_String g) = body.
Proof.
  intros Hg.
  destruct g as [p|ls|pg|geometries|text]; [..|now contradiction (Hg text)];
    cbn [GeometryCollection.Geometry_String].
  - eexists. split; reflexivity.
  - unfold LineString.String.
    destruct (len (Points ls) =? 0)%nat; eexists; split; reflexivity.
  - unfold Polygon.String.
    destruct (len (Rings pg) =? 0)%nat; eexists; split; reflexivity.
  - unfold GeometryCollection.render.
    destruct (len _ =? 0)%nat; eexists; split; reflexivity.
Qed.

(** C7.  A collection that is not empty renders as the comma-joined
    texts of its elements, each without what precedes its first [;]
    and without that [;]; a text with no [;] is kept whole. *)
Theorem GeometryCollection_String_strips_children `{Formatter} :
  (forall gc, len (Geometries gc) <> 0%nat ->
     GeometryCollection.String gc
     = ("SRID=4326;GEOMETRYCOLLECTION("
        ++ strings.Join
             (map (fun g => GeometryCollection.stripSRID
                              (GeometryCollection.Geometry_String g))
                  (elems (Geometries gc))) ","
        ++ ")")%string)
  /\ (forall a b : string,
        ~ In ";"%char (list_ascii_of_string a) ->
        GeometryCollection.stripSRID (a ++ ";" ++ b)%string = b)
  /\ (forall s : string,
        ~ In ";"%char (list_ascii_of_string s) ->
        GeometryCollection.stripSRID s = s).
Proof.
  repeat split.
  - intros [geometries] Hlen. cbn [Geometries] in *.
    unfold GeometryCollection.String, GeometryCollection.render.
    cbn [Geometries]. rewrite len_texts_of.
    destruct (Nat.eqb_spec (len geometries) 0) as [|_]; [contradiction|].
    destruct geometries as [|l]; simpl; [contradiction Hlen; reflexivity|].
    now rewrite map_map.
  - intros a b Ha. unfold GeometryCollection.stripSRID.
    change (";" ++ b)%string with (String ";" b).
    rewrite IndexByte_first by exact Ha. apply from_after.
  - intros s Hs. unfold GeometryCollection.stripSRID.
    now rewrite IndexByte_absent.
Qed.

Lemma GeometryCollection_String_strips_children_witness :
  len (Geometries {| Geometries :=
         mk_slice [GeomPoint {| Lng := 0x4000000000000000; Lat := 0 |};
                   GeomOther "X;Y;Z"; GeomOther "NOPREFIX"] |}) <> 0%nat
  /\ @GeometryCollection.String sample.formatter
       {| Geometries :=
         mk_slice [GeomPoint {| Lng := 0x4000000000000000; Lat := 0 |};
                   GeomOther "X;Y;Z"; GeomOther "NOPREFIX"] |}
     = "SRID=4326;GEOMETRYCOLLECTION(POINT(2 0),Y;Z,NOPREFIX)"%string
  /\ ~ In ";"%char (list_ascii_of_string "X"%string)
  /\ GeometryCollection.stripSRID ("X" ++ ";" ++ "Y;Z")%string = "Y;Z"%string
  /\ ~ In ";"%char (list_ascii_of_string "NOPREFIX"%string)
  /\ GeometryCollection.stripSRID "NOPREFIX"%string = "NOPREFIX"%string.
Proof.
  pose proof (@GeometryCollection_String_strips_children sample.formatter)
    as (Hgc & Hfirst & Hnone).
  assert (Hx : ~ In ";"%char (list_ascii_of_string "X"%string))
    by (simpl; intros [Heq|[]]; discriminate Heq).
  assert (Hn : ~ In ";"%char (list_ascii_of_string "NOPREFIX"%string))
    by (simpl; intuition discriminate).
  split; [simpl; discriminate|].
  split; [rewrite Hgc by (simpl; discriminate); reflexivity|].
  split; [exact Hx|]. split; [exact (Hfirst "X"%string "Y;Z"%string Hx)|].
  split; [exact Hn | exact (Hnone "NOPREFIX"%string Hn)].
Defined.

(** ** From the scanned value to the bytes *)

Ltac scan_bytes H :=
  intros H;
  match goal with
  | |- ?f _ _ = _ => unfold f
  end;
  rewrite H, Read_uint8_cons; reflexivity.

Lemma Point_scanString_bytes s b r p :
  hex.DecodeString s = inr (b :: r) ->
  Point.scanString s p
  = match orderOf (Byte.to_N b) with
    | Some order => Point.scanWKB order r p
    | None => (p, Some (fmt.Errorf ("invalid byte order " ++ fmt.d (Byte.to_N b))%string))
    end.
Proof. scan_bytes H. Qed.

Lemma LineString_scanString_bytes s b r ls :
  hex.DecodeString s = inr (b :: r) ->
  LineString.scanString s ls
  = match orderOf (Byte.to_N b) with
    | Some order => LineString.scanWKB order r ls
    | None => (ls, Some (fmt.Errorf ("invalid byte order " ++ fmt.d (Byte.to_N b))%string))
    end.
Proof. scan_bytes H. Qed.

Lemma Polygon_scanString_bytes s b r pg :
  hex.DecodeString s = inr (b :: r) ->
  Polygon.scanString s pg
  = match orderOf (Byte.to_N b) with
    | Some order => Polygon.scanWKB order r pg
    | None => (pg, Some (fmt.Errorf ("invalid byte order " ++ fmt.d (Byte.to_N b))%string))
    end.
Proof. scan_bytes H. Qed.

Lemma GeometryCollection_scanString_bytes s b r gc :
  hex.DecodeString s = inr (b :: r) ->
  GeometryCollection.scanString s gc
  = match orderOf (Byte.to_N b) with
    | Some order => GeometryCollection.scanWKB order r gc
    | None => (gc, Some (fmt.Errorf ("invalid byte order " ++ fmt.d (Byte.to_N b))%string))
    end.
Proof. scan_bytes H. Qed.

(** A scan that returns no error has decoded its text, found a marker
    and run the rest of the decoder under the order of that marker. *)
Ltac scan_ok_inv :=
  match goal with
  | |- ?f ?s _ = _ -> _ => unfold f
  end;
  unfold binary.Read_uint8;
  let E := fresh "E" in
  let Eb := fresh "Eb" in
  let Em := fresh "Em" in
  destruct (hex.DecodeString _) as [?|b] eqn:E; [discriminate|];
  destruct (binary.Read 1 LittleEndian b) as [?|[m r]] eqn:Eb; [discriminate|];
  destruct (orderOf m) as [order|] eqn:Em; [|discriminate];
  intros Hscan; exists order, r; split; [|exact Hscan];
  apply Read_inv in Eb as [-> _];
  now rewrite (orderOf_Some_inv _ _ Em).

Lemma LineString_scanString_ok s ls ls' :
  LineString.scanString s ls = (ls', None) ->
  exists order r,
    hex.DecodeString s = inr (wire.marker order :: r)
    /\ LineString.scanWKB order r ls = (ls', None).
Proof. scan_ok_inv. Qed.

Lemma Polygon_scanString_ok s pg pg' :
  Polygon.scanString s pg = (pg', None) ->
  exists order r,
    hex.DecodeString s = inr (wire.marker order :: r)
    /\ Polygon.scanWKB order r pg = (pg', None).
Proof. scan_ok_inv. Qed.

Lemma GeometryCollection_scanString_ok s gc gc' :
  GeometryCollection.scanString s gc = (gc', None) ->
  exists order r,
    hex.DecodeString s = inr (wire.marker order :: r)
    /\ GeometryCollection.scanWKB order r gc = (gc', None).
Proof. scan_ok_inv. Qed.

(** ** The decoders on the wire layout *)

Lemma LineString_scanPoints_wire order (pts : list Point) (r : list byte) ls :
  wire.ring_ok pts ->
  LineString.scanPoints order (wire.ring order pts ++ r) ls
  = ({| Points := mk_slice pts |}, None).
Proof.
  intros [Hn Hpts]. unfold LineString.scanPoints, binary.Read_uint32, wire.ring.
  rewrite <- app_assoc, Read_PutUint by exact Hn.
  rewrite elems_make, Nat2N.id.
  now rewrite readPoints_make_wire by assumption.
Qed.

Lemma LineString_scanPoints_ok order (r : list byte) ls ls' :
  LineString.scanPoints order r ls = (ls', None) ->
  exists (pts : list Point) (rest : list byte),
    wire.ring_ok pts
    /\ r = wire.ring order pts ++ rest
    /\ ls' = {| Points := mk_slice pts |}.
Proof.
  unfold LineString.scanPoints, binary.Read_uint32.
  destruct (binary.Read 4 order r) as [e|[n r1]] eqn:E1; [discriminate|].
  rewrite elems_make.
  destruct (readPoints order (N.to_nat n) 0 (replicate (N.to_nat n) zeroPoint) r1)
    as [pts [e|r2]] eqn:E2; [discriminate|].
  intros [= <-].
  apply Read_inv in E1 as [-> Hn].
  apply readPoints_make_inv in E2 as (Hlen & Hpts & ->).
  assert (Hcount : N.of_nat (length pts) = n) by (rewrite Hlen; apply N2Nat.id).
  exists pts, r2. unfold wire.ring, wire.ring_ok.
  rewrite Hcount, <- app_assoc. auto.
Qed.

Lemma Polygon_scanWKB_wire order (rs : list (list Point)) (r : list byte) pg :
  N.of_nat (length rs) < 2 ^ 32 -> Forall wire.ring_ok rs ->
  Polygon.scanWKB order
    (wire.PutUint 8 order GeometryTypePolygon
     ++ wire.PutUint 4 order (N.of_nat (length rs)) ++ wire.rings order rs ++ r) pg
  = ({| Rings := mk_slice (map mk_slice rs) |}, None).
Proof.
  intros Hn Hrs. unfold Polygon.scanWKB, binary.Read_uint64, binary.Read_uint32.
  rewrite Read_PutUint by (vm_compute; reflexivity).
  cbn [N.eqb GeometryTypePolygon Pos.eqb negb].
  rewrite Read_PutUint by exact Hn.
  rewrite elems_make, Nat2N.id.
  now rewrite readRings_make_wire by assumption.
Qed.

Lemma Polygon_scanWKB_ok order (r : list byte) pg pg' :
  Polygon.scanWKB order r pg = (pg', None) ->
  exists (rs : list (list Point)) (rest : list byte),
    N.of_nat (length rs) < 2 ^ 32 /\ Forall wire.ring_ok rs
    /\ r = wire.PutUint 8 order GeometryTypePolygon
           ++ wire.PutUint 4 order (N.of_nat (length rs))
           ++ wire.rings order rs ++ rest
    /\ pg' = {| Rings := mk_slice (map mk_slice rs) |}.
Proof.
  unfold Polygon.scanWKB, binary.Read_uint64, binary.Read_uint32.
  destruct (binary.Read 8 order r) as [e|[ty r1]] eqn:E1; [discriminate|].
  destruct (N.eqb_spec ty 3) as [->|_]; [|discriminate]. cbn [negb].
  destruct (binary.Read 4 order r1) as [e|[n r2]] eqn:E2; [discriminate|].
  rewrite elems_make.
  destruct (readRings order (N.to_nat n) 0 (replicate (N.to_nat n) nil_slice) r2)
    as [rings [e|r3]] eqn:E3; [discriminate|].
  intros [= <-].
  apply Read_inv in E1 as [-> _], E2 as [-> Hn].
  apply readRings_make_inv in E3 as (rs & -> & Hlen & Hrs & ->).
  assert (Hcount : N.of_nat (length rs) = n) by (rewrite Hlen; apply N2Nat.id).
  exists rs, r3. rewrite Hcount. auto.
Qed.

Lemma GeometryCollection_scanWKB_wire order (es : list wire.element)
    (r : list byte) gc :
  N.of_nat (length es) < 2 ^ 32 -> Forall wire.element_ok es ->
  GeometryCollection.scanWKB order
    (wire.PutUint 8 order GeometryTypeGeometryCollection
     ++ wire.PutUint 4 order (N.of_nat (length es)) ++ wire.elements es ++ r) gc
  = ({| Geometries := mk_slice (map wire.geometry_of es) |}, None).
Proof.
  intros Hn Hes.
  unfold GeometryCollection.scanWKB, binary.Read_uint64, binary.Read_uint32.
  rewrite Read_PutUint by (vm_compute; reflexivity).
  cbn [N.eqb GeometryTypeGeometryCollection Pos.eqb negb].
  rewrite Read_PutUint by exact Hn.
  rewrite Nat2N.id.
  now rewrite readGeometries_wire by assumption.
Qed.

Lemma GeometryCollection_scanWKB_ok order (r : list byte) gc gc' :
  GeometryCollection.scanWKB order r gc = (gc', None) ->
  exists (es : list wire.element) (rest : list byte),
    N.of_nat (length es) < 2 ^ 32 /\ Forall wire.element_ok es
    /\ r = wire.PutUint 8 order GeometryTypeGeometryCollection
           ++ wire.PutUint 4 order (N.of_nat (length es))
           ++ wire.elements es ++ rest
    /\ gc' = {| Geometries := mk_slice (map wire.geometry_of es) |}.
Proof.
  unfold GeometryCollection.scanWKB, binary.Read_uint64, binary.Read_uint32.
  destruct (binary.Read 8 order r) as [e|[ty r1]] eqn:E1; [discriminate|].
  destruct (N.eqb_spec ty GeometryTypeGeometryCollection) as [->|_]; [|discriminate].
  cbn [negb].
  destruct (binary.Read 4 order r1) as [e|[n r2]] eqn:E2; [discriminate|].
  destruct (GeometryCollection.readGeometries (N.to_nat n) 0 [] r2)
    as [geoms [e|r3]] eqn:E3; [discriminate|].
  intros [= <-].
  apply Read_inv in E1 as [-> _], E2 as [-> Hn].
  apply readGeometries_inv in E3 as (es & Hlen & Hes & -> & ->).
  assert (Hcount : N.of_nat (length es) = n) by (rewrite Hlen; apply N2Nat.id).
  exists es, r3. rewrite Hcount. auto.
Qed.

(** The collection decoder when an element cannot be read: the
    elements before it stay in the receiver and its error is returned. *)
Lemma GeometryCollection_scanWKB_stops order (es : list wire.element) (n : N)
    (r : list byte) (e : error) gc :
  n < 2 ^ 32 -> Forall wire.element_ok es ->
  (length es < N.to_nat n)%nat ->
  GeometryCollection.readGeometry (length es) r = inl e ->
  GeometryCollection.scanWKB order
    (wire.PutUint 8 order GeometryTypeGeometryCollection
     ++ wire.PutUint 4 order n ++ wire.elements es ++ r) gc
  = ({| Geometries := mk_slice (map wire.geometry_of es) |}, Some e).
Proof.
  intros Hn Hes Hlt He.
  unfold GeometryCollection.scanWKB, binary.Read_uint64, binary.Read_uint32.
  rewrite Read_PutUint by (vm_compute; reflexivity).
  cbn [N.eqb GeometryTypeGeometryCollection Pos.eqb negb].
  rewrite Read_PutUint by exact Hn.
  now rewrite (readGeometries_stops es _ 0 [] r e) by assumption.
Qed.

(** ** The type tag of a path *)

(** C4.  [LineString.Scan] reads a tag of four bytes.  A tag whose low
    29 bits are not 2 is a type mismatch, with or without the SRID flag
    [0x20000000].  With the flag, four more bytes are read and dropped
    before the point count; without it the point count follows the tag
    at once.  The count and the coordinate pairs are then read. *)
Theorem LineString_tag_and_SRID_flag order (ty : N) :
  ty < 2 ^ 32 ->
  (N.land ty 0x1FFFFFFF <> 2 ->
   forall r ls,
     LineString.scanWKB order (wire.PutUint 4 order ty ++ r) ls
     = (ls, Some (errorString
                    ("invalid geometry type for LineString: " ++ fmt.d ty)%string)))
  /\ (N.land ty 0x1FFFFFFF = 2 -> N.land ty 0x20000000 <> 0 ->
      forall srid r ls, srid < 2 ^ 32 ->
        LineString.scanWKB order
          (wire.PutUint 4 order ty ++ wire.PutUint 4 order srid ++ r) ls
        = LineString.scanPoints order r ls)
  /\ (N.land ty 0x1FFFFFFF = 2 -> N.land ty 0x20000000 = 0 ->
      forall r ls,
        LineString.scanWKB order (wire.PutUint 4 order ty ++ r) ls
        = LineString.scanPoints order r ls)
  /\ (forall pts rest ls, wire.ring_ok pts ->
        LineString.scanPoints order
          (wire.PutUint 4 order (N.of_nat (length pts))
           ++ wire.points order pts ++ rest) ls
        = ({| Points := mk_slice pts |}, None)).
Proof.
  intros Hty. repeat split.
  - intros Hbase r ls. unfold LineString.scanWKB, binary.Read_uint32.
    rewrite Read_PutUint by exact Hty.
    now destruct (N.eqb_spec (N.land ty 0x1FFFFFFF) 2).
  - intros Hbase Hflag srid r ls Hsrid.
    unfold LineString.scanWKB, binary.Read_uint32.
    rewrite Read_PutUint by exact Hty.
    destruct (N.eqb_spec (N.land ty 0x1FFFFFFF) 2); [|contradiction].
    destruct (N.eqb_spec (N.land ty 0x20000000) 0); [contradiction|].
    cbn [negb]. now rewrite Read_PutUint by exact Hsrid.
  - intros Hbase Hflag r ls.
    unfold LineString.scanWKB, binary.Read_uint32.
    rewrite Read_PutUint by exact Hty.
    destruct (N.eqb_spec (N.land ty 0x1FFFFFFF) 2); [|contradiction].
    now destruct (N.eqb_spec (N.land ty 0x20000000) 0).
  - intros pts rest ls Hok.
    rewrite <- (LineString_scanPoints_wire order pts rest ls Hok).
    unfold wire.ring. now rewrite <- app_assoc.
Qed.

Lemma LineString_tag_and_SRID_flag_witness :
  (* the tag of a point with the flag: a mismatch *)
  LineString.scanWKB LittleEndian
    (wire.PutUint 4 LittleEndian 0x20000001 ++ []) {| Points := nil_slice |}
  = ({| Points := nil_slice |},
     Some (errorString "invalid geometry type for LineString: 536870913"))
  (* the tag of a path with the flag: the SRID 4326 is skipped *)
  /\ LineString.scanWKB LittleEndian
       (wire.PutUint 4 LittleEndian 0x20000002
        ++ wire.PutUint 4 LittleEndian 4326
        ++ wire.PutUint 4 LittleEndian 1
        ++ wire.points LittleEndian [{| Lng := 5; Lat := 6 |}] ++ [])
       {| Points := nil_slice |}
     = ({| Points := mk_slice [{| Lng := 5; Lat := 6 |}] |}, None)
  (* the plain tag of a path *)
  /\ LineString.scanWKB BigEndian
       (wire.PutUint 4 BigEndian 2
        ++ wire.PutUint 4 BigEndian 1
        ++ wire.points BigEndian [{| Lng := 5; Lat := 6 |}] ++ [])
       {| Points := nil_slice |}
     = ({| Points := mk_slice [{| Lng := 5; Lat := 6 |}] |}, None).
Proof.
  assert (Hok : wire.ring_ok [{| Lng := 5; Lat := 6 |}]).
  { split; [reflexivity|]. repeat constructor. }
  split; [|split].
  - apply (LineString_tag_and_SRID_flag LittleEndian 0x20000001); [reflexivity|].
    vm_compute. discriminate.
  - destruct (LineString_tag_and_SRID_flag LittleEndian 0x20000002 eq_refl)
      as (_ & Hflag & _ & Hpts).
    rewrite Hflag; [| reflexivity | vm_compute; discriminate | reflexivity].
    exact (Hpts [{| Lng := 5; Lat := 6 |}] [] _ Hok).
  - destruct (LineString_tag_and_SRID_flag BigEndian 2 eq_refl)
      as (_ & _ & Hplain & Hpts).
    rewrite Hplain; [| reflexivity | reflexivity].
    exact (Hpts [{| Lng := 5; Lat := 6 |}] [] _ Hok).
Defined.

(** ** The byte-order marker *)





(** ** The elements of a collection, by tag *)

(** C5.  Inside a collection, an element with a valid marker whose
    eight-byte tag is not 1, 2 or 3 (7, a nested collection, included)
    ends the whole decode with the unsupported-type error.  An element
    with tag 1, 2 or 3 is read as a point, a path or an area, and the
    elements read are appended one after the other, in the order of
    the stream. *)
Theorem collection_elements_by_tag :
  (forall order eo es n ty rest gc,
     n < 2 ^ 32 -> Forall wire.element_ok es ->
     (length es < N.to_nat n)%nat ->
     ty < 2 ^ 64 -> ty <> 1 -> ty <> 2 -> ty <> 3 ->
     GeometryCollection.scanWKB order
       (wire.PutUint 8 order GeometryTypeGeometryCollection
        ++ wire.PutUint 4 order n ++ wire.elements es
        ++ wire.marker eo :: wire.PutUint 8 eo ty ++ rest) gc
     = ({| Geometries := mk_slice (map wire.geometry_of es) |},
        Some (errorString
                ("unsupported geometry type in collection: " ++ fmt.d ty)%string)))
  /\ (forall i eo p rest, wire.point_ok p ->
        GeometryCollection.readGeometry i
          (wire.marker eo :: wire.PutUint 8 eo 1 ++ wire.point eo p ++ rest)
        = inr (GeomPoint p, rest))
  /\ (forall i eo pts rest, wire.ring_ok pts ->
        GeometryCollection.readGeometry i
          (wire.marker eo :: wire.PutUint 8 eo 2
           ++ wire.PutUint 4 eo (N.of_nat (length pts))
           ++ wire.points eo pts ++ rest)
        = inr (GeomLineString {| Points := mk_slice pts |}, rest))
  /\ (forall i eo rs rest,
        N.of_nat (length rs) < 2 ^ 32 -> Forall wire.ring_ok rs ->
        GeometryCollection.readGeometry i
          (wire.marker eo :: wire.PutUint 8 eo 3
           ++ wire.PutUint 4 eo (N.of_nat (length rs))
           ++ wire.rings eo rs ++ rest)
        = inr (GeomPolygon {| Rings := mk_slice (map mk_slice rs) |}, rest))
  /\ (forall k i geoms r g r',
        GeometryCollection.readGeometry i r = inr (g, r') ->
        GeometryCollection.readGeometries (S k) i geoms r
        = GeometryCollection.readGeometries k (S i) (geoms ++ [g]) r')
  /\ (forall order es rest gc,
        N.of_nat (length es) < 2 ^ 32 -> Forall wire.element_ok es ->
        GeometryCollection.scanWKB order
          (wire.PutUint 8 order GeometryTypeGeometryCollection
           ++ wire.PutUint 4 order (N.of_nat (length es))
           ++ wire.elements es ++ rest) gc
        = ({| Geometries := mk_slice (map wire.geometry_of es) |}, None)).
Proof.
  split; [|split; [|split; [|split; [|split]]]].
  - intros order eo es n ty rest gc Hn Hes Hlt Hty H1 H2 H3.
    apply GeometryCollection_scanWKB_stops; try assumption.
    now apply readGeometry_bad_tag.
  - intros i eo p rest Hp.
    pose proof (readGeometry_wire (wire.ePoint eo p) i rest Hp) as Hw.
    cbn [wire.element_bytes wire.geometry_of] in Hw.
    now rewrite <- app_comm_cons, <- !app_assoc in Hw.
  - intros i eo pts rest Hpts.
    pose proof (readGeometry_wire (wire.eLineString eo pts) i rest Hpts) as Hw.
    cbn [wire.element_bytes wire.geometry_of] in Hw. unfold wire.ring in Hw.
    now rewrite <- app_comm_cons, <- !app_assoc in Hw.
  - intros i eo rs rest Hn Hrs.
    pose proof (readGeometry_wire (wire.ePolygon eo rs) i rest (conj Hn Hrs)) as Hw.
    cbn [wire.element_bytes wire.geometry_of] in Hw.
    now rewrite <- app_comm_cons, <- !app_assoc in Hw.
  - intros k i geoms r g r' Hg.
    cbn [GeometryCollection.readGeometries]. now rewrite Hg.
  - intros. now apply GeometryCollection_scanWKB_wire.
Qed.

Lemma collection_elements_by_tag_witness :
  (* a nested collection, tag 7, after a point *)
  GeometryCollection.scanWKB LittleEndian
    (wire.PutUint 8 LittleEndian 7 ++ wire.PutUint 4 LittleEndian 2
     ++ wire.elements [wire.ePoint BigEndian {| Lng := 5; Lat := 6 |}]
     ++ wire.marker LittleEndian :: wire.PutUint 8 LittleEndian 7 ++ [])
    {| Geometries := nil_slice |}
  = ({| Geometries := mk_slice [GeomPoint {| Lng := 5; Lat := 6 |}] |},
     Some (errorString "unsupported geometry type in collection: 7"))
  (* a path, then an area, then a point *)
  /\ GeometryCollection.scanWKB BigEndian
       (wire.PutUint 8 BigEndian 7 ++ wire.PutUint 4 BigEndian 3
        ++ wire.elements
             [wire.eLineString LittleEndian [{| Lng := 1; Lat := 2 |}];
              wire.ePolygon BigEndian [[{| Lng := 3; Lat := 4 |}]; []];
              wire.ePoint LittleEndian {| Lng := 5; Lat := 6 |}]
        ++ [])
       {| Geometries := nil_slice |}
     = ({| Geometries := mk_slice
             [GeomLineString {| Points := mk_slice [{| Lng := 1; Lat := 2 |}] |};
              GeomPolygon {| Rings := mk_slice
                [mk_slice [{| Lng := 3; Lat := 4 |}]; mk_slice []] |};
              GeomPoint {| Lng := 5; Lat := 6 |}] |},
        None)
  /\ GeometryCollection.readGeometry 0
       (wire.marker BigEndian :: wire.PutUint 8 BigEndian 1
        ++ wire.point BigEndian {| Lng := 5; Lat := 6 |} ++ [])
     = inr (GeomPoint {| Lng := 5; Lat := 6 |}, []).
Proof.
  destruct collection_elements_by_tag as (Hbad & Hpoint & _ & _ & _ & Hall).
  split; [|split].
  - apply (Hbad LittleEndian LittleEndian
             [wire.ePoint BigEndian {| Lng := 5; Lat := 6 |}] 2 7 []);
      try reflexivity; try discriminate.
    + repeat constructor.
    + simpl. lia.
  - apply (Hall BigEndian
             [wire.eLineString LittleEndian [{| Lng := 1; Lat := 2 |}];
              wire.ePolygon BigEndian [[{| Lng := 3; Lat := 4 |}]; []];
              wire.ePoint LittleEndian {| Lng := 5; Lat := 6 |}] []).
    + reflexivity.
    + repeat constructor.
  - apply (Hpoint 0%nat BigEndian {| Lng := 5; Lat := 6 |} []).
    repeat constructor.
Defined.

(** ** Counts and order of what is decoded *)

Lemma LineString_scanWKB_ok order (r : list byte) ls ls' :
  LineString.scanWKB order r ls = (ls', None) ->
  exists (ty : N) (header : list byte) (pts : list Point) (rest : list byte),
    N.land ty 0x1FFFFFFF = 2
    /\ (N.land ty 0x20000000 = 0 /\ header = wire.PutUint 4 order ty
        \/ N.land ty 0x20000000 <> 0
           /\ exists srid, header = wire.PutUint 4 order ty ++ wire.PutUint 4 order srid)
    /\ wire.ring_ok pts
    /\ r = header ++ wire.ring order pts ++ rest
    /\ ls' = {| Points := mk_slice pts |}.
Proof.
  unfold LineString.scanWKB, binary.Read_uint32.
  destruct (binary.Read 4 order r) as [e|[ty r1]] eqn:E1; [discriminate|].
  apply Read_inv in E1 as [-> _].
  destruct (N.eqb_spec (N.land ty 0x1FFFFFFF) 2) as [Hbase|_]; [|discriminate].
  cbn [negb].
  destruct (N.eqb_spec (N.land ty 0x20000000) 0) as [Hflag|Hflag]; cbn [negb].
  - intros Hscan.
    apply LineString_scanPoints_ok in Hscan as (pts & rest & Hok & -> & ->).
    exists ty, (wire.PutUint 4 order ty), pts, rest. auto 10.
  - destruct (binary.Read 4 order r1) as [e|[srid r2]] eqn:E2; [discriminate|].
    apply Read_inv in E2 as [-> _].
    intros Hscan.
    apply LineString_scanPoints_ok in Hscan as (pts & rest & Hok & -> & ->).
    exists ty, (wire.PutUint 4 order ty ++ wire.PutUint 4 order srid), pts, rest.
    rewrite <- app_assoc. eauto 10.
Qed.

(** C9.  When a decode returns no error, the bytes it was given are a
    marker, the header of the shape, a count of four bytes and the
    items one after the other, and the decoded sequence is the
    sequence of those items, in that order, as many as the count says:
    the points of a path, the rings of an area and the points of each
    ring, and the elements of a collection. *)
Theorem decoded_sequences_match_counts :
  (forall val ls ls',
     val <> any_nil -> LineString.Scan val ls = (ls', None) ->
     exists order header n pts rest,
       wire.wkb_of val
       = Some (wire.marker order :: header ++ wire.PutUint 4 order n
               ++ wire.points order pts ++ rest)
       /\ (length header = 4 \/ length header = 8)%nat
       /\ Points ls' = mk_slice pts
       /\ N.of_nat (len (Points ls')) = n)
  /\ (forall val pg pg',
        val <> any_nil -> Polygon.Scan val pg = (pg', None) ->
        exists order n rs rest,
          wire.wkb_of val
          = Some (wire.marker order :: wire.PutUint 8 order 3
                  ++ wire.PutUint 4 order n ++ wire.rings order rs ++ rest)
          /\ Rings pg' = mk_slice (map mk_slice rs)
          /\ N.of_nat (len (Rings pg')) = n)
  /\ (forall val gc gc',
        val <> any_nil -> GeometryCollection.Scan val gc = (gc', None) ->
        exists order n es rest,
          wire.wkb_of val
          = Some (wire.marker order :: wire.PutUint 8 order 7
                  ++ wire.PutUint 4 order n ++ wire.elements es ++ rest)
          /\ Geometries gc' = mk_slice (map wire.geometry_of es)
          /\ N.of_nat (len (Geometries gc')) = n)
  /\ (forall order pts rs,
        wire.rings order (pts :: rs)
        = wire.PutUint 4 order (N.of_nat (length pts))
          ++ wire.points order pts ++ wire.rings order rs)
  /\ (forall order p pts,
        wire.points order (p :: pts)
        = wire.PutUint 8 order (Lng p) ++ wire.PutUint 8 order (Lat p)
          ++ wire.points order pts).
Proof.
  split; [|split; [|split; [|split]]].
  - intros val ls ls' Hval Hscan.
    assert (exists s, wire.wkb_of val
                      = match hex.DecodeString s with inr b => Some b | inl _ => None end
                      /\ LineString.scanString s ls = (ls', None)) as (s & Hwkb & Hs).
    { destruct val as [|v|v|T]; [contradiction|..|discriminate]; eauto. }
    apply LineString_scanString_ok in Hs as (order & r & Hdec & Hwire).
    apply LineString_scanWKB_ok in Hwire
      as (ty & header & pts & rest & _ & Hheader & _ & -> & ->).
    rewrite Hdec in Hwkb.
    exists order, header, (N.of_nat (length pts)), pts, rest.
    unfold wire.ring in Hwkb. rewrite <- app_assoc in Hwkb.
    repeat split; [exact Hwkb|].
    destruct Hheader as [[_ ->]|[_ [srid ->]]];
      rewrite ?length_app, !length_PutUint; auto.
  - intros val pg pg' Hval Hscan.
    assert (exists s, wire.wkb_of val
                      = match hex.DecodeString s with inr b => Some b | inl _ => None end
                      /\ Polygon.scanString s pg = (pg', None)) as (s & Hwkb & Hs).
    { destruct val as [|v|v|T]; [contradiction|..|discriminate]; eauto. }
    apply Polygon_scanString_ok in Hs as (order & r & Hdec & Hwire).
    apply Polygon_scanWKB_ok in Hwire as (rs & rest & _ & _ & -> & ->).
    rewrite Hdec in Hwkb.
    exists order, (N.of_nat (length rs)), rs, rest.
    repeat split; [exact Hwkb|].
    cbn [Rings len]. now rewrite length_map.
  - intros val gc gc' Hval Hscan.
    assert (exists s, wire.wkb_of val
                      = match hex.DecodeString s with inr b => Some b | inl _ => None end
                      /\ GeometryCollection.scanString s gc = (gc', None))
      as (s & Hwkb & Hs).
    { destruct val as [|v|v|T]; [contradiction|..|discriminate]; eauto. }
    apply GeometryCollection_scanString_ok in Hs as (order & r & Hdec & Hwire).
    apply GeometryCollection_scanWKB_ok in Hwire as (es & rest & _ & _ & -> & ->).
    rewrite Hdec in Hwkb.
    exists order, (N.of_nat (length es)), es, rest.
    repeat split; [exact Hwkb|].
    cbn [Geometries len]. now rewrite length_map.
  - intros order pts rs. cbn [wire.rings]. unfold wire.ring.
    now rewrite <- app_assoc.
  - intros order p pts. cbn [wire.points]. unfold wire.point.
    now rewrite <- app_assoc.
Qed.

Lemma decoded_sequences_match_counts_witness :
  let one := {| Lng := 0x3FF0000000000000; Lat := 0x4000000000000000 |} in
  let path := any_string "010200000001000000000000000000f03f0000000000000040" in
  let area :=
    any_string "0103000000000000000100000001000000000000000000f03f0000000000000040" in
  let coll :=
    any_string
      "01070000000000000001000000010100000000000000000000000000f03f0000000000000040" in
  (path <> any_nil
   /\ LineString.Scan path {| Points := nil_slice |}
      = ({| Points := mk_slice [one] |}, None)
   /\ exists order header n pts rest,
        wire.wkb_of path
        = Some (wire.marker order :: header ++ wire.PutUint 4 order n
                ++ wire.points order pts ++ rest)
        /\ (length header = 4 \/ length header = 8)%nat
        /\ Points {| Points := mk_slice [one] |} = mk_slice pts
        /\ N.of_nat (len (Points {| Points := mk_slice [one] |})) = n)
  /\ (area <> any_nil
      /\ Polygon.Scan area {| Rings := nil_slice |}
         = ({| Rings := mk_slice [mk_slice [one]] |}, None)
      /\ exists order n rs rest,
           wire.wkb_of area
           = Some (wire.marker order :: wire.PutUint 8 order 3
                   ++ wire.PutUint 4 order n ++ wire.rings order rs ++ rest)
           /\ Rings {| Rings := mk_slice [mk_slice [one]] |}
              = mk_slice (map mk_slice rs)
           /\ N.of_nat (len (Rings {| Rings := mk_slice [mk_slice [one]] |})) = n)
  /\ (coll <> any_nil
      /\ GeometryCollection.Scan coll {| Geometries := nil_slice |}
         = ({| Geometries := mk_slice [GeomPoint one] |}, None)
      /\ exists order n es rest,
           wire.wkb_of coll
           = Some (wire.marker order :: wire.PutUint 8 order 7
                   ++ wire.PutUint 4 order n ++ wire.elements es ++ rest)
           /\ Geometries {| Geometries := mk_slice [GeomPoint one] |}
              = mk_slice (map wire.geometry_of es)
           /\ N.of_nat (len (Geometries {| Geometries := mk_slice [GeomPoint one] |}))
              = n).
Proof.
  intros one path area coll.
  destruct decoded_sequences_match_counts as (Hls & Hpg & Hgc & _).
  split; [|split].
  - split; [discriminate|].
    assert (Hscan : LineString.Scan path {| Points := nil_slice |}
                    = ({| Points := mk_slice [one] |}, None))
      by (vm_compute; reflexivity).
    split; [exact Hscan|].
    apply (Hls path _ _ ltac:(discriminate) Hscan).
  - split; [discriminate|].
    assert (Hscan : Polygon.Scan area {| Rings := nil_slice |}
                    = ({| Rings := mk_slice [mk_slice [one]] |}, None))
      by (vm_compute; reflexivity).
    split; [exact Hscan|].
    apply (Hpg area _ _ ltac:(discriminate) Hscan).
  - split; [discriminate|].
    assert (Hscan : GeometryCollection.Scan coll {| Geometries := nil_slice |}
                    = ({| Geometries := mk_slice [GeomPoint one] |}, None))
      by (vm_compute; reflexivity).
    split; [exact Hscan|].
    apply (Hgc coll _ _ ltac:(discriminate) Hscan).
Defined.

(** * Further properties of the decoders and encoders *)

(** ** The receiver after a scan *)

Ltac split_scan H :=
  repeat match type of H with
         | context [match ?x with _ => _ end] =>
             lazymatch x with
             | context [match _ with _ => _ end] => fail
             | _ =>
                 let E := fresh "E" in
                 destruct x eqn:E; cbn beta iota in H; try discriminate H
             end
         end.

(** A scan that returns no error has overwritten the receiver: what
    the receiver held before has no part in the result, so a value can
    be reused for a second scan. *)
Theorem successful_Scan_forgets_receiver :
  (forall val p q p',
     val <> any_nil ->
     Point.Scan val p = (p', returns None) -> Point.Scan val q = (p', returns None))
  /\ (forall val ls ls0 ls',
        val <> any_nil ->
        LineString.Scan val ls = (ls', None) -> LineString.Scan val ls0 = (ls', None))
  /\ (forall val pg pg0 pg',
        val <> any_nil ->
        Polygon.Scan val pg = (pg', None) -> Polygon.Scan val pg0 = (pg', None))
  /\ (forall val gc gc0 gc',
        val <> any_nil ->
        GeometryCollection.Scan val gc = (gc', None) ->
        GeometryCollection.Scan val gc0 = (gc', None)).
Proof.
  split; [|split; [|split]].
  - intros val p q p' Hval H.
    unfold Point.Scan, Point.scanString, Point.scanWKB in *.
    destruct val as [|v|v|T]; [contradiction|..|discriminate];
      split_scan H; congruence.
  - intros val ls ls0 ls' Hval H.
    unfold LineString.Scan, LineString.scanString, LineString.scanWKB,
      LineString.scanPoints in *.
    destruct val as [|v|v|T]; [contradiction|..|discriminate];
      split_scan H; congruence.
  - intros val pg pg0 pg' Hval H.
    unfold Polygon.Scan, Polygon.scanString, Polygon.scanWKB in *.
    destruct val as [|v|v|T]; [contradiction|..|discriminate];
      split_scan H; congruence.
  - intros val gc gc0 gc' Hval H.
    unfold GeometryCollection.Scan, GeometryCollection.scanString,
      GeometryCollection.scanWKB in *.
    destruct val as [|v|v|T]; [contradiction|..|discriminate];
      split_scan H; congruence.
Qed.

Lemma successful_Scan_forgets_receiver_witness :
  let one := {| Lng := 0x3FF0000000000000; Lat := 0x4000000000000000 |} in
  let other := {| Lng := 7; Lat := 9 |} in
  Point.Scan
    (any_string "010100000000000000000000000000f03f0000000000000040") other
  = (one, returns None)
  /\ LineString.Scan
       (any_string "010200000001000000000000000000f03f0000000000000040")
       {| Points := mk_slice [other; other] |}
     = ({| Points := mk_slice [one] |}, None)
  /\ Polygon.Scan
       (any_string
          "0103000000000000000100000001000000000000000000f03f0000000000000040")
       {| Rings := mk_slice [mk_slice [other]; nil_slice] |}
     = ({| Rings := mk_slice [mk_slice [one]] |}, None)
  /\ GeometryCollection.Scan
       (any_string
          "01070000000000000001000000010100000000000000000000000000f03f0000000000000040")
       {| Geometries := mk_slice [GeomOther "x"] |}
     = ({| Geometries := mk_slice [GeomPoint one] |}, None).
Proof.
  intros one other.
  destruct successful_Scan_forgets_receiver as (Hp & Hls & Hpg & Hgc).
  split; [|split; [|split]].
  - apply (Hp _ zeroPoint); [discriminate | vm_compute; reflexivity].
  - apply (Hls _ {| Points := nil_slice |}); [discriminate | vm_compute; reflexivity].
  - apply (Hpg _ {| Rings := nil_slice |}); [discriminate | vm_compute; reflexivity].
  - apply (Hgc _ {| Geometries := nil_slice |});
      [discriminate | vm_compute; reflexivity].
Defined.

(** [Point.Scan] stores both coordinates from one read of sixteen
    bytes: when it returns an error, or panics, the point is as it was
    before the call. *)
Theorem Point_Scan_failure_keeps_receiver :
  forall val p p' o,
    Point.Scan val p = (p', o) -> o <> returns None -> p' = p.
Proof.
  intros val p p' o H Ho.
  unfold Point.Scan, Point.scanString, Point.scanWKB in H.
  destruct val as [|v|v|T]; split_scan H; congruence.
Qed.

Lemma Point_Scan_failure_keeps_receiver_witness :
  (* the tag and only fifteen of the sixteen bytes of the coordinates *)
  Point.Scan
    (any_string "010100000000000000000000000000f03f00000000000000")
    {| Lng := 7; Lat := 9 |}
  = ({| Lng := 7; Lat := 9 |}, returns (Some io_ErrUnexpectedEOF))
  /\ returns (Some io_ErrUnexpectedEOF) <> returns None
  /\ {| Lng := 7; Lat := 9 |} = {| Lng := 7; Lat := 9 |}.
Proof.
  assert (H : Point.Scan
                (any_string "010100000000000000000000000000f03f00000000000000")
                {| Lng := 7; Lat := 9 |}
              = ({| Lng := 7; Lat := 9 |}, returns (Some io_ErrUnexpectedEOF)))
    by (vm_compute; reflexivity).
  split; [exact H|]. split; [discriminate|].
  apply (Point_Scan_failure_keeps_receiver _ _ _ _ H). discriminate.
Defined.

(** ** Streams that end too early *)

Lemma ReadFull_error n (r : list byte) e :
  io.ReadFull n r = inl e -> e = io_EOF \/ e = io_ErrUnexpectedEOF.
Proof.
  unfold io.ReadFull. destruct (n <=? length r)%nat; [discriminate|].
  destruct r; intros [= <-]; auto.
Qed.

Lemma Read_error size order (r : list byte) e :
  binary.Read size order r = inl e -> e = io_EOF \/ e = io_ErrUnexpectedEOF.
Proof.
  unfold binary.Read.
  destruct (io.ReadFull size r) as [e'|[bs r']] eqn:E; [|discriminate].
  intros [= <-]. eapply ReadFull_error, E.
Qed.

Lemma readPoints_error order (k j : nat) (base : list Point) (r : list byte) pts' e :
  readPoints order k j base r = (pts', inl e) ->
  e = io_EOF \/ e = io_ErrUnexpectedEOF.
Proof.
  revert j base r. induction k as [|k IH]; intros j base r; [discriminate|].
  cbn [readPoints]. unfold binary.Read_float64.
  destruct (binary.Read 8 order r) as [e1|[lng r1]] eqn:E1.
  { intros [= _ <-]. eapply Read_error, E1. }
  destruct (binary.Read 8 order r1) as [e2|[lat r2]] eqn:E2.
  { intros [= _ <-]. eapply Read_error, E2. }
  apply IH.
Qed.

Lemma readRings_error order (k i : nat) (base : list (slice Point))
    (r : list byte) rings' e :
  readRings order k i base r = (rings', inl e) ->
  e = io_EOF \/ e = io_ErrUnexpectedEOF.
Proof.
  revert i base r. induction k as [|k IH]; intros i base r; [discriminate|].
  cbn [readRings]. unfold binary.Read_uint32.
  destruct (binary.Read 4 order r) as [e1|[n r1]] eqn:E1.
  { intros [= _ <-]. eapply Read_error, E1. }
  destruct (readPoints order (N.to_nat n) 0 (elems (make zeroPoint n)) r1)
    as [pts [e2|r2]] eqn:E2.
  { intros [= _ <-]. eapply readPoints_error, E2. }
  apply IH.
Qed.

(** [LineString.Scan] and [Polygon.Scan] assign to the receiver only
    after the count is read.  An error that comes with a changed
    receiver is therefore a stream that ended too early; malformed
    text, a bad marker, a wrong tag and an unsupported type all leave
    the receiver as it was. *)
Theorem changed_receiver_means_truncated :
  (forall val ls ls' e,
     LineString.Scan val ls = (ls', Some e) ->
     ls' = ls \/ e = io_EOF \/ e = io_ErrUnexpectedEOF)
  /\ (forall val pg pg' e,
        Polygon.Scan val pg = (pg', Some e) ->
        pg' = pg \/ e = io_EOF \/ e = io_ErrUnexpectedEOF).
Proof.
  split.
  - intros val ls ls' e H.
    unfold LineString.Scan, LineString.scanString, LineString.scanWKB,
      LineString.scanPoints in H.
    destruct val as [|v|v|T]; split_scan H;
      try (left; congruence);
      right; injection H as _ <-; eapply readPoints_error; eassumption.
  - intros val pg pg' e H.
    unfold Polygon.Scan, Polygon.scanString, Polygon.scanWKB in H.
    destruct val as [|v|v|T]; split_scan H;
      try (left; congruence);
      right; injection H as _ <-; eapply readRings_error; eassumption.
Qed.

Lemma changed_receiver_means_truncated_witness :
  let one := {| Lng := 0x3FF0000000000000; Lat := 0x4000000000000000 |} in
  (* two points declared, one present *)
  let path := any_string "010200000002000000000000000000f03f0000000000000040" in
  (* one ring declared, its count cut after two bytes *)
  let area := any_string "010300000000000000010000000100" in
  LineString.Scan path {| Points := nil_slice |}
  = ({| Points := mk_slice [one; zeroPoint] |}, Some io_EOF)
  /\ ({| Points := mk_slice [one; zeroPoint] |} = {| Points := nil_slice |}
      \/ io_EOF = io_EOF \/ io_EOF = io_ErrUnexpectedEOF)
  /\ Polygon.Scan area {| Rings := nil_slice |}
     = ({| Rings := mk_slice [nil_slice] |}, Some io_ErrUnexpectedEOF)
  /\ ({| Rings := mk_slice [nil_slice] |} = {| Rings := nil_slice |}
      \/ io_ErrUnexpectedEOF = io_EOF \/ io_ErrUnexpectedEOF = io_ErrUnexpectedEOF).
Proof.
  intros one path area.
  destruct changed_receiver_means_truncated as (Hls & Hpg).
  assert (H1 : LineString.Scan path {| Points := nil_slice |}
               = ({| Points := mk_slice [one; zeroPoint] |}, Some io_EOF))
    by (vm_compute; reflexivity).
  assert (H2 : Polygon.Scan area {| Rings := nil_slice |}
               = ({| Rings := mk_slice [nil_slice] |}, Some io_ErrUnexpectedEOF))
    by (vm_compute; reflexivity).
  split; [exact H1|]. split; [exact (Hls _ _ _ _ H1)|].
  split; [exact H2 | exact (Hpg _ _ _ _ H2)].
Defined.

(** ** The length of the receiver's sequence *)

Lemma length_alter_pt (f : Point -> Point) (j : nat) (pts : list Point) :
  length (alter f j pts) = length pts.
Proof. apply length_alter. Qed.

Lemma length_readPoints order (k j : nat) (base : list Point) (r : list byte) :
  length (fst (readPoints order k j base r)) = length base.
Proof.
  revert j base r. induction k as [|k IH]; intros j base r; [reflexivity|].
  cbn [readPoints]. unfold binary.Read_float64.
  destruct (binary.Read 8 order r) as [e1|[lng r1]]; [reflexivity|].
  destruct (binary.Read 8 order r1) as [e2|[lat r2]].
  - cbn [fst]. apply length_alter_pt.
  - rewrite IH. now rewrite !length_alter_pt.
Qed.

Lemma length_readRings order (k i : nat) (base : list (slice Point))
    (r : list byte) :
  length (fst (readRings order k i base r)) = length base.
Proof.
  revert i base r. induction k as [|k IH]; intros i base r; [reflexivity|].
  cbn [readRings]. unfold binary.Read_uint32.
  destruct (binary.Read 4 order r) as [e1|[n r1]]; [reflexivity|].
  destruct (readPoints order (N.to_nat n) 0 (elems (make zeroPoint n)) r1)
    as [pts [e2|r2]].
  - cbn [fst]. apply length_insert.
  - rewrite IH. apply length_insert.
Qed.

(** Once the count is read, the receiver's sequence has the declared
    length, whether the items that follow can all be read or not: the
    slice is made from the count and then filled in place. *)
Theorem sequence_length_is_declared_count order (n : N) (r : list byte) :
  n < 2 ^ 32 ->
  (forall ls,
     len (Points (fst (LineString.scanWKB order
                         (wire.PutUint 4 order 2 ++ wire.PutUint 4 order n ++ r) ls)))
     = N.to_nat n)
  /\ (forall pg,
        len (Rings (fst (Polygon.scanWKB order
                           (wire.PutUint 8 order 3 ++ wire.PutUint 4 order n ++ r) pg)))
        = N.to_nat n).
Proof.
  intros Hn. split.
  - intros ls.
    unfold LineString.scanWKB, LineString.scanPoints, binary.Read_uint32.
    rewrite Read_PutUint by (vm_compute; reflexivity).
    change (negb (N.land 2 0x1FFFFFFF =? 2)) with false.
    change (negb (N.land 2 0x20000000 =? 0)) with false.
    cbv iota.
    rewrite Read_PutUint by exact Hn.
    pose proof (length_readPoints order (N.to_nat n) 0
                  (elems (make zeroPoint n)) r) as Hlen.
    destruct (readPoints order (N.to_nat n) 0 (elems (make zeroPoint n)) r)
      as [pts res].
    cbn [fst Points len] in *. rewrite Hlen, elems_make. apply length_replicate.
  - intros pg.
    unfold Polygon.scanWKB, binary.Read_uint64, binary.Read_uint32.
    rewrite Read_PutUint by (vm_compute; reflexivity).
    cbn [N.eqb Pos.eqb negb].
    rewrite Read_PutUint by exact Hn.
    pose proof (length_readRings order (N.to_nat n) 0
                  (elems (make nil_slice n)) r) as Hlen.
    destruct (readRings order (N.to_nat n) 0 (elems (make nil_slice n)) r)
      as [rings res].
    cbn [fst Rings len] in *. rewrite Hlen, elems_make. apply length_replicate.
Qed.

Lemma sequence_length_is_declared_count_witness :
  (* three points declared and none present; two rings declared and
     the first one cut short *)
  len (Points (fst (LineString.scanWKB LittleEndian
                      (wire.PutUint 4 LittleEndian 2
                       ++ wire.PutUint 4 LittleEndian 3 ++ [])
                      {| Points := nil_slice |}))) = 3%nat
  /\ len (Rings (fst (Polygon.scanWKB BigEndian
                        (wire.PutUint 8 BigEndian 3 ++ wire.PutUint 4 BigEndian 2
                         ++ wire.PutUint 4 BigEndian 5)
                        {| Rings := nil_slice |}))) = 2%nat.
Proof.
  split.
  - apply (sequence_length_is_declared_count LittleEndian 3 [] eq_refl).
  - apply (sequence_length_is_declared_count BigEndian 2
             (wire.PutUint 4 BigEndian 5) eq_refl).
Defined.

(** ** A collection whose decode fails *)

Lemma readGeometries_error_inv (k i : nat) (geoms : list Geometry)
    (r : list byte) geoms' e :
  GeometryCollection.readGeometries k i geoms r = (geoms', inl e) ->
  exists (es : list wire.element) (rest : list byte),
    (length es < k)%nat /\ Forall wire.element_ok es
    /\ r = wire.elements es ++ rest
    /\ geoms' = geoms ++ map wire.geometry_of es
    /\ GeometryCollection.readGeometry (i + length es) rest = inl e.
Proof.
  revert i geoms r. induction k as [|k IH]; intros i geoms r; [discriminate|].
  cbn [GeometryCollection.readGeometries].
  destruct (GeometryCollection.readGeometry i r) as [e1|[g r1]] eqn:E.
  - intros [= <- <-]. exists [], r. simpl.
    rewrite app_nil_r, Nat.add_0_r. repeat split; [lia | constructor | exact E].
  - intros Hrec.
    apply IH in Hrec as (es & rest & Hlt & Hok & -> & -> & Hfail).
    apply readGeometry_inv in E as (el & Hel & -> & ->).
    exists (el :: es), rest. simpl.
    rewrite <- !app_assoc.
    replace (i + S (length es))%nat with (S i + length es)%nat by lia.
    repeat split; [lia | now constructor | exact Hfail].
Qed.

(** When the decode of a collection fails inside the loop, the
    receiver holds the elements read before the failing one, in the
    order of the stream, and nothing else; the error is the one of the
    element that could not be read. *)
Theorem collection_failure_keeps_read_elements order (n : N) (r : list byte)
    gc gc' e :
  n < 2 ^ 32 ->
  GeometryCollection.scanWKB order
    (wire.PutUint 8 order 7 ++ wire.PutUint 4 order n ++ r) gc
  = (gc', Some e) ->
  exists (es : list wire.element) (rest : list byte),
    (length es < N.to_nat n)%nat /\ Forall wire.element_ok es
    /\ r = wire.elements es ++ rest
    /\ Geometries gc' = mk_slice (map wire.geometry_of es)
    /\ GeometryCollection.readGeometry (length es) rest = inl e.
Proof.
  intros Hn.
  unfold GeometryCollection.scanWKB, binary.Read_uint64, binary.Read_uint32.
  rewrite Read_PutUint by (vm_compute; reflexivity).
  change (negb (7 =? GeometryTypeGeometryCollection)) with false. cbv iota.
  rewrite Read_PutUint by exact Hn.
  destruct (GeometryCollection.readGeometries (N.to_nat n) 0 [] r)
    as [geoms [e1|r1]] eqn:E; [|discriminate].
  intros [= <- <-].
  apply readGeometries_error_inv in E as (es & rest & Hlt & Hok & -> & -> & Hfail).
  exists es, rest. auto.
Qed.

Lemma collection_failure_keeps_read_elements_witness :
  exists (es : list wire.element) (rest : list byte),
    (length es < N.to_nat 3)%nat /\ Forall wire.element_ok es
    /\ wire.elements [wire.ePoint BigEndian {| Lng := 5; Lat := 6 |};
                      wire.eLineString LittleEndian []]
       ++ ["001"%byte; "009"%byte]
       = wire.elements es ++ rest
    /\ Geometries
         {| Geometries := mk_slice [GeomPoint {| Lng := 5; Lat := 6 |};
                                    GeomLineString {| Points := mk_slice [] |}] |}
       = mk_slice (map wire.geometry_of es)
    /\ GeometryCollection.readGeometry (length es) rest = inl io_ErrUnexpectedEOF.
Proof.
  apply (collection_failure_keeps_read_elements LittleEndian 3 _
           {| Geometries := nil_slice |}); [reflexivity|].
  vm_compute. reflexivity.
Defined.

(** ** Fewer bytes than the count asks for *)

Lemma length_wire_points order (pts : list Point) :
  length (wire.points order pts) = (16 * length pts)%nat.
Proof.
  induction pts as [|p pts IH]; [reflexivity|].
  cbn [wire.points length]. unfold wire.point.
  rewrite !length_app, !length_PutUint, IH. lia.
Qed.

(** A path whose count asks for more coordinate pairs than the stream
    holds (sixteen bytes each) is never decoded short: the scan returns
    [io.EOF] or [io.ErrUnexpectedEOF].  Likewise a point needs sixteen
    bytes after its tag. *)
Theorem short_stream_is_an_error order :
  (forall (n : N) (r : list byte) ls,
     n < 2 ^ 32 -> (length r < 16 * N.to_nat n)%nat ->
     exists ls' e,
       LineString.scanWKB order
         (wire.PutUint 4 order 2 ++ wire.PutUint 4 order n ++ r) ls = (ls', Some e)
       /\ (e = io_EOF \/ e = io_ErrUnexpectedEOF))
  /\ (forall (ty : N) (r : list byte) p,
        ty < 2 ^ 64 -> (length r < 16)%nat ->
        exists e,
          Point.scanWKB order (wire.PutUint 8 order ty ++ r) p = (p, Some e)
          /\ (e = io_EOF \/ e = io_ErrUnexpectedEOF)).
Proof.
  split.
  - intros n r ls Hn Hshort.
    unfold LineString.scanWKB, LineString.scanPoints, binary.Read_uint32.
    rewrite Read_PutUint by (vm_compute; reflexivity).
    change (negb (N.land 2 0x1FFFFFFF =? 2)) with false.
    change (negb (N.land 2 0x20000000 =? 0)) with false.
    cbv iota.
    rewrite Read_PutUint by exact Hn. rewrite elems_make.
    destruct (readPoints order (N.to_nat n) 0 (replicate (N.to_nat n) zeroPoint) r)
      as [pts [e|r']] eqn:E.
    + eexists _, e. split; [reflexivity|]. eapply readPoints_error, E.
    + exfalso. apply readPoints_make_inv in E as (Hlen & _ & ->).
      rewrite length_app, length_wire_points, Hlen in Hshort. lia.
  - intros ty r p Hty H16.
    unfold Point.scanWKB, binary.Read_uint64.
    rewrite Read_PutUint by exact Hty.
    unfold Point.Read_struct.
    destruct (io.ReadFull 16 r) as [e|[bs r']] eqn:E.
    + exists e. split; [reflexivity|]. eapply ReadFull_error, E.
    + apply ReadFull_inv in E as [-> Hbs]. rewrite length_app in H16. lia.
Qed.

Lemma short_stream_is_an_error_witness :
  (1 < 2 ^ 32)
  /\ (length (wire.PutUint 8 LittleEndian 5) < 16 * N.to_nat 1)%nat
  /\ (exists ls' e,
        LineString.scanWKB LittleEndian
          (wire.PutUint 4 LittleEndian 2 ++ wire.PutUint 4 LittleEndian 1
           ++ wire.PutUint 8 LittleEndian 5) {| Points := nil_slice |}
        = (ls', Some e)
        /\ (e = io_EOF \/ e = io_ErrUnexpectedEOF))
  /\ (exists e,
        Point.scanWKB BigEndian
          (wire.PutUint 8 BigEndian 1 ++ wire.PutUint 8 BigEndian 5) zeroPoint
        = (zeroPoint, Some e)
        /\ (e = io_EOF \/ e = io_ErrUnexpectedEOF)).
Proof.
  assert (H1 : 1 < 2 ^ 32) by reflexivity.
  assert (H2 : (length (wire.PutUint 8 LittleEndian 5) < 16 * N.to_nat 1)%nat)
    by (simpl; lia).
  split; [exact H1|]. split; [exact H2|]. split.
  - apply (proj1 (short_stream_is_an_error LittleEndian) 1 _ _ H1 H2).
  - apply (proj2 (short_stream_is_an_error BigEndian) 1 (wire.PutUint 8 BigEndian 5));
      [reflexivity | simpl; lia].
Defined.

(** ** The decoders on what the tests generate *)

Lemma scan_generated order (bs : list byte) :
  hex.DecodeString (wire.EncodeToString (wire.marker order :: bs))
  = inr (wire.marker order :: bs)
  /\ orderOf (Byte.to_N (wire.marker order)) = Some order.
Proof. split; [apply DecodeString_EncodeToString | apply orderOf_marker]. Qed.

(** [createLineStringWKB] writes the tag of a path in eight bytes, and
    [LineString.Scan] reads four.  In little-endian order the other
    four bytes of the tag are read as a count of zero: the scan returns
    no error and an empty path, whatever points were written.  In
    big-endian order the first four bytes are read as the tag 0: the
    scan returns a type mismatch and leaves the receiver as it was. *)
Theorem LineString_Scan_misreads_generated_tag (points : slice Point) ls :
  LineString.Scan (any_string (tests.createLineStringWKB LittleEndian points)) ls
  = ({| Points := mk_slice [] |}, None)
  /\ LineString.Scan (any_string (tests.createLineStringWKB BigEndian points)) ls
     = (ls, Some (errorString "invalid geometry type for LineString: 0")).
Proof.
  unfold LineString.Scan, tests.createLineStringWKB. split.
  - destruct (scan_generated LittleEndian
                (wire.PutUint 8 LittleEndian 2
                 ++ wire.PutUint 4 LittleEndian (N.of_nat (len points))
                 ++ wire.points LittleEndian (elems points))) as [Hdec Hord].
    rewrite (LineString_scanString_bytes _ _ _ _ Hdec), Hord.
    change (wire.PutUint 8 LittleEndian 2)
      with (wire.PutUint 4 LittleEndian 2 ++ wire.PutUint 4 LittleEndian 0).
    rewrite <- app_assoc.
    unfold LineString.scanWKB, LineString.scanPoints, binary.Read_uint32.
    rewrite Read_PutUint by (vm_compute; reflexivity).
    change (negb (N.land 2 0x1FFFFFFF =? 2)) with false.
    change (negb (N.land 2 0x20000000 =? 0)) with false.
    cbv iota.
    rewrite Read_PutUint by (vm_compute; reflexivity).
    reflexivity.
  - destruct (scan_generated BigEndian
                (wire.PutUint 8 BigEndian 2
                 ++ wire.PutUint 4 BigEndian (N.of_nat (len points))
                 ++ wire.points BigEndian (elems points))) as [Hdec Hord].
    rewrite (LineString_scanString_bytes _ _ _ _ Hdec), Hord.
    change (wire.PutUint 8 BigEndian 2)
      with (wire.PutUint 4 BigEndian 0 ++ wire.PutUint 4 BigEndian 2).
    rewrite <- app_assoc.
    unfold LineString.scanWKB, binary.Read_uint32.
    rewrite Read_PutUint by (vm_compute; reflexivity).
    reflexivity.
Qed.

(** [Polygon.Scan] reads back what [createPolygonWKB] writes, in
    either byte order, as a string and as a [[]uint8]: the rings and
    their points in the same order.  A ring that was nil comes back
    allocated and empty. *)
Theorem Polygon_Scan_reads_generated order (rings : slice (slice Point)) pg :
  N.of_nat (len rings) < 2 ^ 32 ->
  Forall wire.ring_ok (map elems (elems rings)) ->
  let decoded :=
    {| Rings := mk_slice (map (fun ring => mk_slice (elems ring)) (elems rings)) |} in
  Polygon.Scan (any_string (tests.createPolygonWKB order rings)) pg
  = (decoded, None)
  /\ Polygon.Scan
       (any_uint8s (list_byte_of_string (tests.createPolygonWKB order rings))) pg
     = (decoded, None).
Proof.
  intros Hn Hok decoded.
  assert (H : Polygon.scanString (tests.createPolygonWKB order rings) pg
              = (decoded, None)).
  { unfold tests.createPolygonWKB.
    destruct (scan_generated order
                (wire.PutUint 8 order 3
                 ++ wire.PutUint 4 order (N.of_nat (len rings))
                 ++ wire.rings order (map elems (elems rings)))) as [Hdec Hord].
    rewrite (Polygon_scanString_bytes _ _ _ _ Hdec), Hord.
    replace (len rings) with (length (map elems (elems rings))) in *
      by (rewrite length_map; now destruct rings).
    rewrite <- (app_nil_r (wire.rings _ _)).
    rewrite Polygon_scanWKB_wire by assumption.
    unfold decoded. now rewrite map_map. }
  split; [exact H|].
  unfold Polygon.Scan. now rewrite string_of_list_byte_of_string.
Qed.

Lemma Polygon_Scan_reads_generated_witness :
  let square :=
    mk_slice [mk_slice [ {| Lng := 0; Lat := 0 |};
                         {| Lng := 0x3FF0000000000000; Lat := 0 |};
                         {| Lng := 0; Lat := 0 |} ];
              nil_slice] in
  Polygon.Scan (any_string (tests.createPolygonWKB BigEndian square))
    {| Rings := nil_slice |}
  = ({| Rings := mk_slice [mk_slice [ {| Lng := 0; Lat := 0 |};
                                      {| Lng := 0x3FF0000000000000; Lat := 0 |};
                                      {| Lng := 0; Lat := 0 |} ];
                           mk_slice []] |}, None).
Proof.
  intros square.
  apply (Polygon_Scan_reads_generated BigEndian square).
  - reflexivity.
  - repeat constructor.
Defined.

Lemma generated_elements order (gs : list Geometry) :
  Forall tests.fits gs ->
  exists es : list wire.element,
    length es = length gs /\ Forall wire.element_ok es
    /\ concat (map (tests.geometryWKB order) gs) = wire.elements es
    /\ map wire.geometry_of es = map tests.allocated gs.
Proof.
  induction 1 as [|g gs Hg _ (es & Hlen & Hok & Hbytes & Hgeo)].
  - exists []. repeat split. constructor.
  - destruct g as [p|[pts]|[rings]|?|?]; try contradiction; cbn [tests.fits] in Hg.
    + exists (wire.ePoint order p :: es). simpl.
      rewrite Hlen, Hbytes, Hgeo. unfold wire.point.
      rewrite <- !app_assoc. repeat split. now constructor.
    + exists (wire.eLineString order (elems pts) :: es). simpl.
      rewrite Hlen, Hbytes, Hgeo. unfold wire.ring.
      replace (length (elems pts)) with (len pts) by now destruct pts.
      rewrite <- !app_assoc. repeat split. now constructor.
    + exists (wire.ePolygon order (map elems (elems rings)) :: es).
      cbn [Rings] in Hg.
      assert (Hrings : length (map elems (elems rings)) = len rings)
        by (rewrite length_map; now destruct rings).
      split; [simpl; now rewrite Hlen|].
      split; [constructor; [|exact Hok]; cbn [wire.element_ok]; now rewrite Hrings|].
      split.
      * cbn [map concat tests.geometryWKB wire.elements wire.element_bytes Rings].
        rewrite Hbytes, Hrings.
        now rewrite <- !app_comm_cons, <- !app_assoc.
      * cbn [map wire.geometry_of tests.allocated Rings].
        now rewrite Hgeo, map_map.
Qed.

(** [GeometryCollection.Scan] reads back what
    [createGeometryCollectionWKB] writes for points, paths and areas,
    in either byte order: the same elements in the same order, with
    nil sequences allocated. *)
Theorem GeometryCollection_Scan_reads_generated order
    (geometries : slice Geometry) gc :
  N.of_nat (len geometries) < 2 ^ 32 ->
  Forall tests.fits (elems geometries) ->
  GeometryCollection.Scan
    (any_string (tests.createGeometryCollectionWKB order geometries)) gc
  = ({| Geometries := mk_slice (map tests.allocated (elems geometries)) |}, None).
Proof.
  intros Hn Hfits.
  unfold GeometryCollection.Scan, tests.createGeometryCollectionWKB.
  destruct (generated_elements order _ Hfits) as (es & Hlen & Hok & -> & <-).
  destruct (scan_generated order
              (wire.PutUint 8 order 7
               ++ wire.PutUint 4 order (N.of_nat (len geometries))
               ++ wire.elements es)) as [Hdec Hord].
  rewrite (GeometryCollection_scanString_bytes _ _ _ _ Hdec), Hord.
  replace (len geometries) with (length es) in *
    by (rewrite Hlen; now destruct geometries).
  rewrite <- (app_nil_r (wire.elements es)).
  now apply GeometryCollection_scanWKB_wire.
Qed.

Lemma GeometryCollection_Scan_reads_generated_witness :
  let geometries :=
    mk_slice [GeomPoint {| Lng := 0x4000000000000000; Lat := 0 |};
              GeomLineString {| Points := nil_slice |};
              GeomPolygon {| Rings := mk_slice [mk_slice [zeroPoint]] |}] in
  GeometryCollection.Scan
    (any_string (tests.createGeometryCollectionWKB LittleEndian geometries))
    {| Geometries := nil_slice |}
  = ({| Geometries :=
          mk_slice [GeomPoint {| Lng := 0x4000000000000000; Lat := 0 |};
                    GeomLineString {| Points := mk_slice [] |};
                    GeomPolygon {| Rings := mk_slice [mk_slice [zeroPoint]] |}] |},
     None).
Proof.
  intros geometries.
  apply (GeometryCollection_Scan_reads_generated LittleEndian geometries).
  - reflexivity.
  - repeat constructor.
Defined.

(** ** Bytes after the geometry *)

Lemma Point_scanWKB_ok order (r : list byte) p p' :
  Point.scanWKB order r p = (p', None) ->
  exists (ty : N) (rest : list byte),
    ty < 2 ^ 64 /\ wire.point_ok p'
    /\ r = wire.PutUint 8 order ty ++ wire.point order p' ++ rest.
Proof.
  unfold Point.scanWKB, binary.Read_uint64, Point.Read_struct.
  destruct (binary.Read 8 order r) as [e|[ty r1]] eqn:E1; [discriminate|].
  destruct (io.ReadFull 16 r1) as [e|[bs rest]] eqn:E2; [discriminate|].
  intros [= <-].
  apply Read_inv in E1 as [-> Hty].
  apply ReadFull_inv in E2 as [-> Hbs].
  assert (H8 : length (take 8 bs) = 8%nat) by (rewrite length_take; lia).
  assert (H8' : length (drop 8 bs) = 8%nat) by (rewrite length_drop; lia).
  exists ty, rest. split; [exact Hty|]. split.
  - split; cbn [Lng Lat].
    + pose proof (Uint_lt order (take 8 bs)) as H. now rewrite H8 in H.
    + pose proof (Uint_lt order (drop 8 bs)) as H. now rewrite H8' in H.
  - unfold wire.point. cbn [Lng Lat].
    pose proof (PutUint_Uint order (take 8 bs)) as Ha. rewrite H8 in Ha.
    pose proof (PutUint_Uint order (drop 8 bs)) as Hb. rewrite H8' in Hb.
    now rewrite Ha, Hb, take_drop.
Qed.

Lemma Point_scanString_ok s p p' :
  Point.scanString s p = (p', None) ->
  exists order r,
    hex.DecodeString s = inr (wire.marker order :: r)
    /\ Point.scanWKB order r p = (p', None).
Proof. scan_ok_inv. Qed.

Lemma Read_more size order (r : list byte) v r' (extra : list byte) :
  binary.Read size order r = inr (v, r') ->
  binary.Read size order (r ++ extra) = inr (v, r' ++ extra).
Proof.
  intros H. apply Read_inv in H as [-> Hv].
  rewrite <- app_assoc. now apply Read_PutUint.
Qed.

Lemma Point_scanWKB_more order (r extra : list byte) p p' :
  Point.scanWKB order r p = (p', None) ->
  Point.scanWKB order (r ++ extra) p = (p', None).
Proof.
  intros H. apply Point_scanWKB_ok in H as (ty & rest & Hty & Hok & ->).
  rewrite <- !app_assoc. now apply Point_scanWKB_any_tag.
Qed.

Lemma LineString_scanWKB_more order (r extra : list byte) ls ls' :
  LineString.scanWKB order r ls = (ls', None) ->
  LineString.scanWKB order (r ++ extra) ls = (ls', None).
Proof.
  assert (Hpoints : forall r0, LineString.scanPoints order r0 ls = (ls', None) ->
                               LineString.scanPoints order (r0 ++ extra) ls = (ls', None)).
  { intros r0 H. apply LineString_scanPoints_ok in H as (pts & rest & Hok & -> & ->).
    rewrite <- app_assoc. now apply LineString_scanPoints_wire. }
  unfold LineString.scanWKB, binary.Read_uint32.
  destruct (binary.Read 4 order r) as [e|[ty r1]] eqn:E1; [discriminate|].
  rewrite (Read_more _ _ _ _ _ extra E1).
  destruct (negb (N.land ty 0x1FFFFFFF =? 2)); [discriminate|].
  destruct (negb (N.land ty 0x20000000 =? 0)); [|apply Hpoints].
  destruct (binary.Read 4 order r1) as [e|[srid r2]] eqn:E2; [discriminate|].
  rewrite (Read_more _ _ _ _ _ extra E2). apply Hpoints.
Qed.

Lemma Polygon_scanWKB_more order (r extra : list byte) pg pg' :
  Polygon.scanWKB order r pg = (pg', None) ->
  Polygon.scanWKB order (r ++ extra) pg = (pg', None).
Proof.
  intros H. apply Polygon_scanWKB_ok in H as (rs & rest & Hn & Hok & -> & ->).
  rewrite <- !app_assoc. now apply Polygon_scanWKB_wire.
Qed.

Lemma GeometryCollection_scanWKB_more order (r extra : list byte) gc gc' :
  GeometryCollection.scanWKB order r gc = (gc', None) ->
  GeometryCollection.scanWKB order (r ++ extra) gc = (gc', None).
Proof.
  intros H.
  apply GeometryCollection_scanWKB_ok in H as (es & rest & Hn & Hok & -> & ->).
  rewrite <- !app_assoc. now apply GeometryCollection_scanWKB_wire.
Qed.

Ltac scan_more Hok Hbytes Hmore :=
  let order := fresh "order" in
  let r := fresh "r" in
  let Hdec := fresh "Hdec" in
  let Hwire := fresh "Hwire" in
  intros H;
  apply Hok in H as (order & r & Hdec & Hwire);
  rewrite DecodeString_EncodeToString in Hdec;
  injection Hdec as ->;
  rewrite <- app_comm_cons;
  rewrite (Hbytes _ _ _ _ (DecodeString_EncodeToString _)), orderOf_marker;
  now apply Hmore.

(** No decoder looks at what follows the geometry it has read: a
    stream that decodes without error decodes to the same value when
    any bytes are appended to it. *)
Theorem bytes_after_the_geometry_are_ignored (b extra : list byte) :
  (forall p p',
     Point.Scan (any_string (wire.EncodeToString b)) p = (p', returns None) ->
     Point.Scan (any_string (wire.EncodeToString (b ++ extra))) p
     = (p', returns None))
  /\ (forall ls ls',
        LineString.Scan (any_string (wire.EncodeToString b)) ls = (ls', None) ->
        LineString.Scan (any_string (wire.EncodeToString (b ++ extra))) ls
        = (ls', None))
  /\ (forall pg pg',
        Polygon.Scan (any_string (wire.EncodeToString b)) pg = (pg', None) ->
        Polygon.Scan (any_string (wire.EncodeToString (b ++ extra))) pg
        = (pg', None))
  /\ (forall gc gc',
        GeometryCollection.Scan (any_string (wire.EncodeToString b)) gc
        = (gc', None) ->
        GeometryCollection.Scan (any_string (wire.EncodeToString (b ++ extra))) gc
        = (gc', None)).
Proof.
  split; [|split; [|split]].
  - intros p p'. unfold Point.Scan.
    destruct (Point.scanString (wire.EncodeToString b) p) as [p0 err] eqn:E.
    intros [= -> ->].
    assert (Point.scanString (wire.EncodeToString (b ++ extra)) p = (p', None))
      as ->; [|reflexivity].
    revert E.
    scan_more Point_scanString_ok Point_scanString_bytes Point_scanWKB_more.
  - intros ls ls'. unfold LineString.Scan.
    scan_more LineString_scanString_ok LineString_scanString_bytes
      LineString_scanWKB_more.
  - intros pg pg'. unfold Polygon.Scan.
    scan_more Polygon_scanString_ok Polygon_scanString_bytes Polygon_scanWKB_more.
  - intros gc gc'. unfold GeometryCollection.Scan.
    scan_more GeometryCollection_scanString_ok GeometryCollection_scanString_bytes
      GeometryCollection_scanWKB_more.
Qed.

Lemma bytes_after_the_geometry_are_ignored_witness :
  let one := {| Lng := 0x3FF0000000000000; Lat := 0x4000000000000000 |} in
  let point :=
    wire.marker LittleEndian :: wire.PutUint 8 LittleEndian 1
      ++ wire.point LittleEndian one in
  let area :=
    wire.marker BigEndian :: wire.PutUint 8 BigEndian 3
      ++ wire.PutUint 4 BigEndian 1 ++ wire.rings BigEndian [[one]] in
  Point.Scan (any_string (wire.EncodeToString (point ++ ["255"%byte]))) zeroPoint
  = (one, returns None)
  /\ Polygon.Scan (any_string (wire.EncodeToString (area ++ ["001"%byte; "002"%byte])))
       {| Rings := nil_slice |}
     = ({| Rings := mk_slice [mk_slice [one]] |}, None).
Proof.
  intros one point area. split.
  - apply (bytes_after_the_geometry_are_ignored point ["255"%byte]).
    vm_compute. reflexivity.
  - apply (bytes_after_the_geometry_are_ignored area ["001"%byte; "002"%byte]).
    vm_compute. reflexivity.
Defined.

(** ** A point in either byte order *)

(** [Point.Scan] reads back the two coordinates written after the
    marker and the tag, bit for bit, in big-endian and in little-endian
    order alike: the two encodings of one point decode to the same
    value. *)
Theorem Point_Scan_reads_both_orders (pt : Point) :
  wire.point_ok pt ->
  forall order p,
    Point.Scan
      (any_string
         (wire.EncodeToString
            (wire.marker order :: wire.PutUint 8 order GeometryTypePoint
             ++ wire.PutUint 8 order (Lng pt) ++ wire.PutUint 8 order (Lat pt)))) p
    = (pt, returns None).
Proof.
  intros Hok order p. unfold Point.Scan.
  destruct (scan_generated order
              (wire.PutUint 8 order GeometryTypePoint
               ++ wire.PutUint 8 order (Lng pt) ++ wire.PutUint 8 order (Lat pt)))
    as [Hdec Hord].
  rewrite (Point_scanString_bytes _ _ _ _ Hdec), Hord.
  pose proof (Point_scanWKB_any_tag order GeometryTypePoint pt p [] eq_refl Hok) as H.
  unfold wire.point in H. rewrite app_nil_r in H.
  now rewrite H.
Qed.

Lemma Point_Scan_reads_both_orders_witness :
  let pt := {| Lng := 0x402695b350912800; Lat := 0x4045e26088638812 |} in
  wire.point_ok pt
  /\ Point.Scan
       (any_string "000000000000000001402695b3509128004045e26088638812") zeroPoint
     = (pt, returns None)
  /\ Point.Scan
       (any_string "01010000000000000000289150b39526401288638860e24540") zeroPoint
     = (pt, returns None).
Proof.
  intros pt.
  assert (Hok : wire.point_ok pt) by (split; reflexivity).
  split; [exact Hok|]. split.
  - exact (Point_Scan_reads_both_orders pt Hok BigEndian zeroPoint).
  - exact (Point_Scan_reads_both_orders pt Hok LittleEndian zeroPoint).
Defined.

(** ** The texts *)

(** The text of every geometry of the package starts with
    [SRID=4326;], and what a collection keeps of a child is that text
    without this prefix; a nested collection is rendered like any
    other child. *)
Theorem package_texts_start_with_SRID `{Formatter} (g : Geometry) :
  (forall text, g <> GeomOther text) ->
  GeometryCollection.Geometry_String g
  = ("SRID=4326;"
     ++ GeometryCollection.stripSRID (GeometryCollection.Geometry_String g))%string.
Proof.
  intros Hg.
  destruct g as [p|ls|pg|geometries|text]; [..|now contradiction (Hg text)];
    cbn [GeometryCollection.Geometry_String].
  - reflexivity.
  - unfold LineString.String. now destruct (len (Points ls) =? 0)%nat.
  - unfold Polygon.String. now destruct (len (Rings pg) =? 0)%nat.
  - unfold GeometryCollection.render. now destruct (len _ =? 0)%nat.
Qed.

Lemma package_texts_start_with_SRID_witness :
  let inner :=
    GeomCollection (mk_slice [GeomPoint {| Lng := 0x4000000000000000; Lat := 0 |}]) in
  (forall text, inner <> GeomOther text)
  /\ @GeometryCollection.Geometry_String sample.formatter inner
     = "SRID=4326;GEOMETRYCOLLECTION(POINT(2 0))"%string
  /\ GeometryCollection.stripSRID
       (@GeometryCollection.Geometry_String sample.formatter inner)
     = "GEOMETRYCOLLECTION(POINT(2 0))"%string.
Proof.
  intros inner.
  assert (Hinner : forall text, inner <> GeomOther text) by discriminate.
  pose proof (@package_texts_start_with_SRID sample.formatter inner Hinner) as H.
  split; [exact Hinner|]. split; [rewrite H|]; reflexivity.
Defined.

(** The EMPTY text is produced for a sequence of length zero and for
    nothing else: a path, an area or a collection with at least one
    item renders with parentheses, whatever the items are (an area
    whose rings are all empty included). *)
Theorem EMPTY_exactly_for_zero_length `{Formatter} :
  (forall ls, LineString.String ls = "SRID=4326;LINESTRING EMPTY"%string
              <-> len (Points ls) = 0%nat)
  /\ (forall pg, Polygon.String pg = "SRID=4326;POLYGON EMPTY"%string
                 <-> len (Rings pg) = 0%nat)
  /\ (forall gc, GeometryCollection.String gc
                 = "SRID=4326;GEOMETRYCOLLECTION EMPTY"%string
                 <-> len (Geometries gc) = 0%nat).
Proof.
  split; [|split].
  - intros ls. unfold LineString.String.
    destruct (Nat.eqb_spec (len (Points ls)) 0) as [->|Hne]; [easy|].
    split; [|contradiction]. simpl. intros Heq. discriminate Heq.
  - intros pg. unfold Polygon.String.
    destruct (Nat.eqb_spec (len (Rings pg)) 0) as [->|Hne]; [easy|].
    split; [|contradiction]. simpl. intros Heq. discriminate Heq.
  - intros gc. unfold GeometryCollection.String, GeometryCollection.render.
    rewrite len_texts_of.
    destruct (Nat.eqb_spec (len (Geometries gc)) 0) as [->|Hne]; [easy|].
    split; [|contradiction]. simpl. intros Heq. discriminate Heq.
Qed.
